(** * BemEstar: questionnaires between psychologists and patients

    A shallow embedding of the React Native client (EditForm, AnswerForm,
    Register, AuthContext) and of the repository contract the client talks
    to, with the properties of the specification proved over them. *)

From Stdlib Require Import String Ascii NArith ZArith DecimalString.
From stdpp Require Import gmap list option.

Local Open Scope string_scope.
Local Open Scope list_scope.

(** ** JavaScript strings

    A JavaScript string is a sequence of UTF-16 code units; [length] counts
    code units and [===] on strings is equality of the sequences. *)

Abbreviation jsstring := (list N).

(** A literal of the source, one code unit per character (ASCII literals). *)
Definition js (s : string) : jsstring :=
  map N_of_ascii (list_ascii_of_string s).

(** WhiteSpace and LineTerminator of ECMAScript, the code units
    [String.prototype.trim] strips. *)
Definition isWhiteSpace (c : N) : bool :=
  ((9 <=? c) && (c <=? 13) || (c =? 32) || (c =? 160) || (c =? 5760)
   || (8192 <=? c) && (c <=? 8202) || (c =? 8232) || (c =? 8233)
   || (c =? 8239) || (c =? 8287) || (c =? 12288) || (c =? 65279))%N.

Fixpoint trimStart (s : jsstring) : jsstring :=
  match s with
  | [] => []
  | c :: s' => if isWhiteSpace c then trimStart s' else s
  end.

Definition trimEnd (s : jsstring) : jsstring := rev (trimStart (rev s)).

(** [s.trim()] *)
Definition trim (s : jsstring) : jsstring := trimEnd (trimStart s).

(** [!s] for a string [s]: only the empty string is falsy. *)
Definition falsy (s : jsstring) : bool :=
  match s with [] => true | _ => false end.

(** A text is blank when nothing is left of it after trimming:
    [!s.trim()] in the source. *)
Definition blank (s : jsstring) : Prop := trim s = [].

Global Instance blank_dec s : Decision (blank s).
Proof. unfold blank. apply _. Defined.

(** ** Handlers that await one request

    Every event handler of the client is synchronous up to at most one
    [await axios...]: it performs some effects, possibly issues one request,
    and continues with the reply. *)

Inductive Handler (E Req Rep : Type) : Type :=
| Stop (tr : list E)
| Await (tr : list E) (req : Req) (k : Rep → list E).
Arguments Stop {E Req Rep} tr.
Arguments Await {E Req Rep} tr req k.

(** The request the handler issues, if any. *)
Definition issued {E Req Rep} (h : Handler E Req Rep) : option Req :=
  match h with
  | Stop _ => None
  | Await _ req _ => Some req
  end.

(** The effects of the handler against a server answering with [server]. *)
Definition run {E Req Rep} (server : Req → Rep) (h : Handler E Req Rep)
  : list E :=
  match h with
  | Stop tr => tr
  | Await tr req k => tr ++ k (server req)
  end.

(** A text shown to the user: a literal of the source, or the [detail] of
    an error reply. *)
Inductive Message :=
| Literal (s : string)
| Detail (d : jsstring).

(** [detail || fallback] *)
Definition orElse (detail : option jsstring) (fallback : string) : Message :=
  match detail with
  | Some (c :: d) => Detail (c :: d)
  | _ => Literal fallback
  end.

(** ** Data shared by the screens

    [interface Question] and [interface Answer] are declared with the same
    fields in each screen that uses them. *)

Record Question := mkQuestion {
  id : jsstring;
  text : jsstring;
  order : Z;
}.

Global Instance Question_eq_dec : EqDecision Question.
Proof. solve_decision. Defined.

Record Answer := mkAnswer {
  questionId : jsstring;
  questionText : jsstring;
  answerText : jsstring;
}.

Global Instance Answer_eq_dec : EqDecision Answer.
Proof. solve_decision. Defined.

(** ** EditForm (the psychologist's edit screen, in the version that
    assigns patients) *)

Module EditForm.

(** The component state the event handlers read and write. *)
Record State := mkState {
  title : jsstring;
  description : jsstring;
  questions : list Question;
  assignedPatientIds : list jsstring;
}.

(** [prev.includes(pid) ? prev.filter((x) => x !== pid) : [...prev, pid]] *)
Definition toggleAssign (prev : list jsstring) (pid : jsstring)
  : list jsstring :=
  if bool_decide (pid ∈ prev)
  then filter (λ x, x ≠ pid) prev
  else prev ++ [pid].

(** [questions.map((q) => (q.id === id ? { ...q, text } : q))] *)
Definition updateQuestion (qs : list Question) (i t : jsstring)
  : list Question :=
  map (λ q, if bool_decide (id q = i)
            then {| id := id q; text := t; order := order q |}
            else q) qs.

(** [questions.filter((q) => q.id !== id)] *)
Definition removeQuestion (qs : list Question) (i : jsstring)
  : list Question :=
  filter (λ q, id q ≠ i) qs.

(** [addQuestion], with the reading [Date.now().toString()] given. *)
Definition addQuestion (qs : list Question) (now : jsstring)
  : list Question :=
  qs ++ [ {| id := now; text := []; order := Z.of_nat (length qs) |} ].

(** The body of the PUT request. *)
Record PutBody := mkPutBody {
  put_title : jsstring;
  put_description : jsstring;
  put_questions : list Question;
  put_assignedPatientIds : list jsstring;
}.

Inductive Effect :=
| Alert (heading message : string)
| SetIsSaving (b : bool).

(** [handleSubmit]; the reply tells whether the PUT request resolved. The
    OK button of the success alert navigates back. *)
Definition handleSubmit (st : State) : Handler Effect PutBody bool :=
  if falsy (trim (title st)) then
    Stop [Alert "Erro" "Por favor, digite um título"]
  else if bool_decide (length (questions st) = 0) then
    Stop [Alert "Erro" "Por favor, adicione pelo menos uma pergunta"]
  else
    let emptyQuestions :=
      filter (λ q, falsy (trim (text q)) = true) (questions st) in
    if bool_decide (0 < length emptyQuestions) then
      Stop [Alert "Erro" "Por favor, preencha todas as perguntas"]
    else
      Await [SetIsSaving true]
        {| put_title := title st;
           put_description := description st;
           put_questions := questions st;
           put_assignedPatientIds := assignedPatientIds st |}
        (λ ok,
           [ if ok : bool
             then Alert "Sucesso" "Questionário atualizado com sucesso"
             else Alert "Erro" "Falha ao atualizar questionário";
             SetIsSaving false ]).

(** The handler rejected the input: one error alert and no request. *)
Definition rejected (h : Handler Effect PutBody bool) : Prop :=
  ∃ message, h = Stop [Alert "Erro" message].

(** The form invariant of the data model. *)
Definition form_invariant (st : State) : Prop :=
  ¬ blank (title st) ∧ questions st ≠ [] ∧
  Forall (λ q, ¬ blank (text q)) (questions st).

(** What the three checks of [handleSubmit] look for. *)
Definition invalid (st : State) : Prop :=
  blank (title st) ∨ questions st = [] ∨
  Exists (λ q, blank (text q)) (questions st).

End EditForm.

(** ** AnswerForm (the patient's answer screen) *)

Module AnswerForm.

Record FormData := mkFormData {
  form_id : jsstring;
  title : jsstring;
  description : jsstring;
  questions : list Question;
}.

(** The route parameter [id], the loaded form, the answers typed so far
    (an object keyed by question id, here the map of its own entries) and
    the token of the session. *)
Record State := mkState {
  routeId : jsstring;
  form : option FormData;
  answers : gmap jsstring jsstring;
  token : option jsstring;
}.

(** [setAnswers({ ...answers, [questionId]: text })] *)
Definition updateAnswer (st : State) (qid t : jsstring) : State :=
  {| routeId := routeId st; form := form st;
     answers := <[qid := t]> (answers st); token := token st |}.

(** The body of the POST request. *)
Record PostBody := mkPostBody {
  formId : jsstring;
  post_answers : list Answer;
}.

Inductive Reply :=
| Created
| Failed (detail : option jsstring).

Inductive Effect :=
| WindowAlert (m : Message)
| Alert (heading : string) (m : Message)
| WindowConfirm (question : string)
| AlertConfirm (heading question : string)
| Replace (path : string)
| Push (path : string)
| SetIsSubmitting (b : bool)
| Throw (error : string).

(** The property names every object inherits from [Object.prototype]. *)
Definition inheritedNames : list jsstring :=
  js <$> [ "constructor"; "hasOwnProperty"; "isPrototypeOf";
           "propertyIsEnumerable"; "toLocaleString"; "toString"; "valueOf";
           "__proto__"; "__defineGetter__"; "__defineSetter__";
           "__lookupGetter__"; "__lookupSetter__" ].

(** [answers[k]]: the text typed under [k]; without an own entry, what the
    object inherits under [k] (a function, or the prototype itself) when [k]
    is one of the names above, and [undefined] otherwise. *)
Inductive Read :=
| Typed (a : jsstring)
| Inherited
| Undefined.

Definition read (answers : gmap jsstring jsstring) (k : jsstring) : Read :=
  match answers !! k with
  | Some a => Typed a
  | None => if bool_decide (k ∈ inheritedNames) then Inherited else Undefined
  end.

(** [!answers[q.id] || !answers[q.id].trim()], or [None] when the test
    throws: an inherited value is truthy and has no [trim], so calling it is
    a TypeError. *)
Definition unanswered (answers : gmap jsstring jsstring) (q : Question)
  : option bool :=
  match read answers (id q) with
  | Typed a => Some (falsy a || falsy (trim a))
  | Undefined => Some true
  | Inherited => None
  end.

(** [form.questions.filter((q) => ...)], or [None] when the test throws for
    some question. *)
Fixpoint unansweredQuestions (answers : gmap jsstring jsstring)
    (qs : list Question) : option (list Question) :=
  match qs with
  | [] => Some []
  | q :: qs' =>
      match unanswered answers q with
      | None => None
      | Some b =>
          match unansweredQuestions answers qs' with
          | None => None
          | Some rest => Some (if b then q :: rest else rest)
          end
      end
  end.

(** [form.questions.map((q) => ({ questionId: q.id, questionText: q.text,
    answerText: answers[q.id] }))]; the answer is defined where this runs,
    after the check of [handleSubmit]. *)
Definition formattedAnswers (answers : gmap jsstring jsstring)
    (qs : list Question) : list Answer :=
  map (λ q, {| questionId := id q;
               questionText := text q;
               answerText := default [] (answers !! id q) |}) qs.

(** [!token] *)
Definition noToken (t : option jsstring) : bool :=
  match t with
  | None => true
  | Some t => falsy t
  end.

Definition incomplete : string :=
  "Por favor, responda todas as perguntas antes de enviar".

Definition confirmation : string :=
  "Tem certeza que deseja enviar suas respostas? Após o envio não será possível editar.".

(** [handleSubmit] on the web ([web = true]) or on a device; [confirmed]
    is the patient's choice in the confirmation dialog. On a device the
    success alert does not block: the OK button navigates afterwards. When
    the test of the answers throws, the handler ends there: nothing is shown
    and nothing is sent. *)
Definition handleSubmit (st : State) (web confirmed : bool)
  : Handler Effect PostBody Reply :=
  match form st with
  | None => Stop []
  | Some form =>
    match unansweredQuestions (answers st) (questions form) with
    | None => Stop [Throw "TypeError"]
    | Some unanswered =>
    if bool_decide (0 < length unanswered) then
      Stop [ if web then WindowAlert (Literal incomplete)
             else Alert "Erro" (Literal incomplete) ]
    else if noToken (token st) then
      Stop [ if web
             then WindowAlert (Literal "Sessão expirada. Faça login novamente")
             else Alert "Sessão expirada" (Literal "Faça login novamente");
             Replace "/login" ]
    else
      let body :=
        {| formId := routeId st;
           post_answers := formattedAnswers (answers st) (questions form) |} in
      if web then
        if negb confirmed then Stop [WindowConfirm confirmation]
        else
          Await [WindowConfirm confirmation; SetIsSubmitting true] body
            (λ reply,
               match reply with
               | Created =>
                   [ WindowAlert (Literal "Respostas enviadas com sucesso!");
                     Push "/patient" ]
               | Failed detail =>
                   [ WindowAlert (orElse detail "Falha ao enviar respostas") ]
               end ++ [SetIsSubmitting false])
      else
        if confirmed then
          Await [AlertConfirm "Confirmar Envio" confirmation;
                 SetIsSubmitting true] body
            (λ reply,
               match reply with
               | Created =>
                   [ Alert "Sucesso" (Literal "Respostas enviadas com sucesso!");
                     SetIsSubmitting false;
                     Push "/patient" ]
               | Failed detail =>
                   [ Alert "Erro" (orElse detail "Falha ao enviar respostas");
                     SetIsSubmitting false ]
               end)
        else Stop [AlertConfirm "Confirmar Envio" confirmation]
    end
  end.

(** The handler stopped at the check of the answers. *)
Definition validationError (h : Handler Effect PostBody Reply) : Prop :=
  h = Stop [WindowAlert (Literal incomplete)] ∨
  h = Stop [Alert "Erro" (Literal incomplete)].

(** The answer to [q] is missing, or blank. *)
Definition lacksAnswer (answers : gmap jsstring jsstring) (q : Question)
  : Prop :=
  match answers !! id q with
  | None => True
  | Some a => blank a
  end.

(** Nothing was typed for [q], and its id names an inherited property. *)
Definition inheritedAnswer (answers : gmap jsstring jsstring) (q : Question)
  : Prop :=
  answers !! id q = None ∧ id q ∈ inheritedNames.

End AnswerForm.

(** ** The two roles of the data model, as the registration screen has
    them: ['psychologist' | 'patient']. *)

Inductive Role := psychologist | patient.

Global Instance Role_eq_dec : EqDecision Role.
Proof. solve_decision. Defined.

(** ** AuthContext *)

Module Auth.

(** ['psychologist' | 'patient' | 'patiente'] *)
Inductive Role := psychologist | patient | patiente.

Record User := mkUser {
  user_id : jsstring;
  username : jsstring;
  name : jsstring;
  email : jsstring;
  role : Role;
}.

(** The state of the provider, and the contents of AsyncStorage. *)
Record State := mkState {
  user : option User;
  token : option jsstring;
  isLoading : bool;
  storage : gmap jsstring jsstring;
}.

(** What [login] and [register] do with the reply to their request:
    [setItem('token', ...)], [setItem('user', JSON.stringify(...))],
    [setToken], [setUser]. *)
Definition saveSession (stringify : User → jsstring)
    (access_token : jsstring) (userData : User) (st : State) : State :=
  {| user := Some userData;
     token := Some access_token;
     isLoading := isLoading st;
     storage := <[js "user" := stringify userData]>
                  (<[js "token" := access_token]> (storage st)) |}.

(** [logout] *)
Definition logout (st : State) : State :=
  {| user := None;
     token := None;
     isLoading := isLoading st;
     storage := delete (js "user") (delete (js "token") (storage st)) |}.

End Auth.

(** ** Register (the registration screen) *)

Module Register.

Record State := mkState {
  username : jsstring;
  password : jsstring;
  name : jsstring;
  email : jsstring;
  role : Role;
}.

(** The body of [POST /api/auth/register]. *)
Record Body := mkBody {
  body_username : jsstring;
  body_password : jsstring;
  body_name : jsstring;
  body_email : jsstring;
  body_role : Role;
}.

Inductive Reply :=
| Registered (access_token : jsstring) (userData : Auth.User)
| Failed (detail : option jsstring).

Inductive Effect :=
| Alert (heading : string) (m : Message)
| SetIsLoading (b : bool)
| SaveSession (access_token : jsstring) (userData : Auth.User)
| Replace (path : string).

(** [handleRegister], with [register] of the AuthContext inlined. *)
Definition handleRegister (st : State) : Handler Effect Body Reply :=
  if falsy (username st) || falsy (password st)
     || falsy (name st) || falsy (email st) then
    Stop [Alert "Erro" (Literal "Por favor, preencha todos os campos")]
  else if bool_decide (length (username st) < 3) then
    Stop [Alert "Erro" (Literal "Usuário deve ter no mínimo 3 caracteres")]
  else if bool_decide (length (password st) < 6) then
    Stop [Alert "Erro" (Literal "Senha deve ter no mínimo 6 caracteres")]
  else
    Await [SetIsLoading true]
      {| body_username := username st;
         body_password := password st;
         body_name := name st;
         body_email := email st;
         body_role := role st |}
      (λ reply,
         match reply with
         | Registered access_token userData =>
             [ SaveSession access_token userData;
               Replace (if bool_decide (role st = patient)
                        then "/patient" else "/psychologist") ]
         | Failed detail =>
             [ Alert "Erro no Cadastro"
                 (orElse detail
                    "Falha ao cadastrar. Verifique os dados e tente novamente.") ]
         end ++ [SetIsLoading false]).

(** The handler rejected the input: one error alert and no request. *)
Definition rejected (h : Handler Effect Body Reply) : Prop :=
  ∃ message, h = Stop [Alert "Erro" (Literal message)].

(** What the three checks of [handleRegister] look for. *)
Definition refusedByScreen (st : State) : Prop :=
  username st = [] ∨ password st = [] ∨ name st = [] ∨ email st = [] ∨
  length (username st) < 3 ∨ length (password st) < 6.

End Register.

(** What section 4.1 calls an invalid registration. *)
Definition invalidRegistration (username password name email : jsstring)
  : Prop :=
  length username < 3 ∨ length password < 6 ∨
  blank username ∨ blank password ∨ blank name ∨ blank email.

(** ** The repository behind the client

    The server of the application is not part of the sources; what follows
    is its contract as the specification words it (sections 3, 4 and 7). *)

Module Repository.

(** Modelled from the spec: the error taxonomy of section 7. *)
Inductive Error :=
| ValidationError
| AuthError
| ForbiddenError
| NotFoundError
| ConflictError.

(** Modelled from the spec: a call returns its result or fails with one of
    the typed errors (section 7, server code absent). *)
Inductive Result (A : Type) : Type :=
| Ok (a : A)
| Err (e : Error).
Arguments Ok {A} a.
Arguments Err {A} e.

Global Instance Result_ret : MRet Result := λ A a, Ok a.
Global Instance Result_bind : MBind Result := λ A B f r,
  match r with
  | Ok a => f a
  | Err e => Err e
  end.

(** Fail with [e] unless [b] holds. *)
Definition require (b : bool) (e : Error) : Result unit :=
  if b then Ok () else Err e.

(** Fail with [e] when there is nothing to return. *)
Definition orFail {A} (o : option A) (e : Error) : Result A :=
  match o with
  | Some a => Ok a
  | None => Err e
  end.

(** Modelled from the spec: the User of section 3 (server side absent),
    with the two-valued role. *)
Record User := mkUser {
  user_id : jsstring;
  username : jsstring;
  passwordHash : jsstring;
  name : jsstring;
  email : jsstring;
  role : Role;
}.

(** Modelled from the spec: the Form of section 3 (server side absent). *)
Record Form := mkForm {
  form_id : jsstring;
  title : jsstring;
  description : option jsstring;
  questions : list Question;
  ownerPsychologistId : jsstring;
  assignedPatientIds : list jsstring;
}.

(** Modelled from the spec: the Response of section 3 (server side
    absent). *)
Record Response := mkResponse {
  response_id : jsstring;
  formId : jsstring;
  patientId : jsstring;
  formTitle : jsstring;
  answers : list Answer;
  submittedAt : N;
}.

(** Modelled from the spec: the bearer token of section 2 (the Session
    Issuer is absent), as the identity and the role it encodes. *)
Record Token := mkToken {
  subject : jsstring;
  token_role : Role;
}.

(** Modelled from the spec: the state of the three repositories of
    section 2 (server storage absent), and the counter behind the ids. *)
Record Store := mkStore {
  users : list User;
  forms : list Form;
  responses : list Response;
  nextId : N;
}.

(** Modelled from the spec: the store before any call (server storage
    absent). *)
Definition empty : Store :=
  {| users := []; forms := []; responses := []; nextId := 1 |}.

(** Modelled from the spec: "assigns sequential ids" (the server's id
    generator is absent); the n-th id is the decimal numeral of n. *)
Definition idOf (n : N) : jsstring :=
  js (NilZero.string_of_uint (N.to_uint n)).

(** Modelled from the spec: lookup by id in the stores (server code
    absent). *)
Definition findUser (s : Store) (uid : jsstring) : option User :=
  find (λ u, bool_decide (user_id u = uid)) (users s).

(** Modelled from the spec: lookup of a form by id (server code absent). *)
Definition findForm (s : Store) (fid : jsstring) : option Form :=
  find (λ f, bool_decide (form_id f = fid)) (forms s).

(** Modelled from the spec: the visibility rule of section 4.2 (server
    code absent): a form is visible to a patient when [assignedPatientIds]
    is empty or contains the patient. *)
Definition visible (f : Form) (p : jsstring) : bool :=
  bool_decide (assignedPatientIds f = []) ||
  bool_decide (p ∈ assignedPatientIds f).

(** Modelled from the spec: the key of the uniqueness constraint of sections
    4.3 and 5 (server code absent), the pair (formId, patientId). *)
Definition answersTo (fid p : jsstring) (r : Response) : bool :=
  bool_decide (formId r = fid) && bool_decide (patientId r = p).

(** Modelled from the spec: the responses stored for a pair (server code
    absent). *)
Definition responsesOf (s : Store) (fid p : jsstring) : list Response :=
  filter (λ r, answersTo fid p r = true) (responses s).

(** Modelled from the spec: the answer to question [qid] in the list a
    submission carries (server code absent). *)
Definition answerFor (submitted : list Answer) (qid : jsstring)
  : option jsstring :=
  answerText <$> find (λ a, bool_decide (questionId a = qid)) submitted.

(** Modelled from the spec: "every question in the Form must have a
    non-blank answer" (section 4.3, server code absent). *)
Definition answered (submitted : list Answer) (q : Question) : bool :=
  match answerFor submitted (id q) with
  | Some a => bool_decide (¬ blank a)
  | None => false
  end.

Section SessionIssuer.

(** The password hash function of the credential store. *)
Context (hash : jsstring → jsstring).

(** Modelled from the spec: [register] of section 4.1 (server code
    absent): ValidationError if the username has fewer than 3 characters,
    the password fewer than 6, or a required field is blank;
    ConflictError if the username exists; otherwise the user is created
    and a token issued. *)
Definition register (s : Store)
    (username password name email : jsstring) (role : Role)
  : Result (Store * (Token * User)) :=
  _ ← require (negb (bool_decide (length username < 3)
                     || bool_decide (length password < 6)
                     || bool_decide (blank username)
                     || bool_decide (blank password)
                     || bool_decide (blank name)
                     || bool_decide (blank email))) ValidationError;
  _ ← require (negb (existsb (λ u, bool_decide (Repository.username u = username))
                             (users s))) ConflictError;
  let u := {| user_id := idOf (nextId s); username := username;
              passwordHash := hash password; name := name;
              email := email; role := role |} in
  Ok ({| users := users s ++ [u]; forms := forms s;
         responses := responses s; nextId := N.succ (nextId s) |},
      ({| subject := user_id u; token_role := role |}, u)).

(** Modelled from the spec: [login] of section 4.1 (server code
    absent). *)
Definition login (s : Store) (username password : jsstring)
  : Result (Token * User) :=
  u ← orFail (find (λ u, bool_decide (Repository.username u = username))
                   (users s)) AuthError;
  _ ← require (bool_decide (passwordHash u = hash password)) AuthError;
  Ok ({| subject := user_id u; token_role := role u |}, u).

End SessionIssuer.

(** Modelled from the spec: the validation shared by [createForm] and
    [updateForm] (section 4.2, server code absent): title blank, questions
    empty, or any question text blank. *)
Definition validForm (title : jsstring) (texts : list jsstring) : bool :=
  negb (bool_decide (blank title)
        || bool_decide (texts = [])
        || existsb (λ t, bool_decide (blank t)) texts).

(** Modelled from the spec: [createForm] of section 4.2 (server code
    absent); the form takes the next id, its questions the ids after it
    and their positions as order. *)
Definition createForm (s : Store) (ownerId title : jsstring)
    (description : option jsstring) (texts : list jsstring)
  : Result (Store * Form) :=
  _ ← require (validForm title texts) ValidationError;
  let qs := imap (λ i t, {| id := idOf (N.succ (nextId s) + N.of_nat i);
                            text := t; order := Z.of_nat i |}) texts in
  let f := {| form_id := idOf (nextId s); title := title;
              description := description; questions := qs;
              ownerPsychologistId := ownerId; assignedPatientIds := [] |} in
  Ok ({| users := users s; forms := forms s ++ [f];
         responses := responses s;
         nextId := N.succ (nextId s) + N.of_nat (length texts) |}, f).

(** Modelled from the spec: the patch of [updateForm], the body of
    [PUT /forms/:id] in section 6 (server code absent). *)
Record Patch := mkPatch {
  patch_title : jsstring;
  patch_description : option jsstring;
  patch_questions : list Question;
  patch_assignedPatientIds : option (list jsstring);
}.

(** Modelled from the spec: [updateForm] of section 4.2 (server code
    absent): NotFoundError for a missing id, ForbiddenError for
    non-owners, the validation of [createForm], [assignedPatientIds]
    replaced wholesale if provided. *)
Definition updateForm (s : Store) (fid callerId : jsstring) (p : Patch)
  : Result (Store * Form) :=
  f ← orFail (findForm s fid) NotFoundError;
  _ ← require (bool_decide (ownerPsychologistId f = callerId)) ForbiddenError;
  _ ← require (validForm (patch_title p) (text <$> patch_questions p))
        ValidationError;
  let f' := {| form_id := form_id f; title := patch_title p;
               description := patch_description p;
               questions := patch_questions p;
               ownerPsychologistId := ownerPsychologistId f;
               assignedPatientIds :=
                 default (assignedPatientIds f)
                         (patch_assignedPatientIds p) |} in
  Ok ({| users := users s;
         forms := (λ g, if bool_decide (form_id g = fid) then f' else g)
                    <$> forms s;
         responses := responses s; nextId := nextId s |}, f').

(** Modelled from the spec: [deleteForm] of section 4.2 (server code
    absent): only the owner; the responses to the form are retained. *)
Definition deleteForm (s : Store) (fid callerId : jsstring)
  : Result (Store * unit) :=
  f ← orFail (findForm s fid) NotFoundError;
  _ ← require (bool_decide (ownerPsychologistId f = callerId)) ForbiddenError;
  Ok ({| users := users s;
         forms := filter (λ g, form_id g ≠ fid) (forms s);
         responses := responses s; nextId := nextId s |}, ()).

(** Modelled from the spec: [listFormsForPatient] of section 4.2 (server
    code absent): the forms whose [assignedPatientIds] is empty or
    contains the patient. *)
Definition listFormsForPatient (s : Store) (patientId : jsstring)
  : list Form :=
  filter (λ f, visible f patientId = true) (forms s).

(** Modelled from the spec: the checks of [submitResponse] that come
    before the uniqueness constraint, in the order section 4.3 lists them
    (after the implicit [verify] of the caller and the lookup of the
    form). *)
Definition checkSubmission (s : Store) (fid patientId : jsstring)
    (submitted : list Answer) : Result Form :=
  caller ← orFail (findUser s patientId) AuthError;
  f ← orFail (findForm s fid) NotFoundError;
  _ ← require (bool_decide (role caller = patient)
               && forallb (answered submitted) (questions f))
        ValidationError;
  _ ← require (visible f patientId) ForbiddenError;
  Ok f.

(** Modelled from the spec: [submitResponse] of section 4.3 (server code
    absent): ConflictError if a response exists for the pair; otherwise
    the response is created with the title of the form and, per question
    and in the order of the form, the text of the question as it is now
    and the answer submitted for it. *)
Definition submitResponse (s : Store) (fid patientId : jsstring)
    (submitted : list Answer) (now : N) : Result (Store * Response) :=
  f ← checkSubmission s fid patientId submitted;
  _ ← require (bool_decide (responsesOf s fid patientId = [])) ConflictError;
  let r := {| response_id := idOf (nextId s); formId := fid;
              patientId := patientId; formTitle := title f;
              answers :=
                (λ q, {| questionId := id q; questionText := text q;
                         answerText := default [] (answerFor submitted (id q)) |})
                  <$> questions f;
              submittedAt := now |} in
  Ok ({| users := users s; forms := forms s;
         responses := responses s ++ [r];
         nextId := N.succ (nextId s) |}, r).

(** Modelled from the spec: a response "joined with submitting patient's
    name/email" (section 4.3, server code absent). *)
Record ResponseView := mkResponseView {
  view_id : jsstring;
  view_patientId : jsstring;
  patientName : jsstring;
  patientEmail : jsstring;
  view_answers : list Answer;
  view_submittedAt : N;
}.

(** Modelled from the spec: the join of a response with its patient (server
    code absent). *)
Definition view (s : Store) (r : Response) : ResponseView :=
  let patient := findUser s (patientId r) in
  {| view_id := response_id r; view_patientId := patientId r;
     patientName := default [] (name <$> patient);
     patientEmail := default [] (email <$> patient);
     view_answers := answers r; view_submittedAt := submittedAt r |}.

(** Modelled from the spec: [listResponsesForForm] of section 4.3 (server
    code absent): only the owning psychologist; all responses to the form,
    each with the patient's name and email. *)
Definition listResponsesForForm (s : Store) (fid callerId : jsstring)
  : Result (list ResponseView) :=
  f ← orFail (findForm s fid) NotFoundError;
  _ ← require (bool_decide (ownerPsychologistId f = callerId)) ForbiddenError;
  Ok (view s <$> filter (λ r, formId r = fid) (responses s)).

(** Modelled from the spec: the calls of section 4 that change the store
    (server code absent); each call is one atomic transition. *)
Inductive Op :=
| Register (username password name email : jsstring) (role : Role)
| CreateForm (ownerId title : jsstring) (description : option jsstring)
             (texts : list jsstring)
| UpdateForm (fid callerId : jsstring) (p : Patch)
| DeleteForm (fid callerId : jsstring)
| SubmitResponse (fid patientId : jsstring) (submitted : list Answer)
                 (now : N).

(** Modelled from the spec: the store after a call (server code absent); a
    call that fails changes nothing. *)
Definition after {A} (s : Store) (r : Result (Store * A)) : Store :=
  match r with
  | Ok (s', _) => s'
  | Err _ => s
  end.

(** Modelled from the spec: one call applied to the store (server code
    absent). *)
Definition exec (hash : jsstring → jsstring) (s : Store) (op : Op) : Store :=
  match op with
  | Register u p n e r => after s (register hash s u p n e r)
  | CreateForm o t d qs => after s (createForm s o t d qs)
  | UpdateForm fid c p => after s (updateForm s fid c p)
  | DeleteForm fid c => after s (deleteForm s fid c)
  | SubmitResponse fid p a now => after s (submitResponse s fid p a now)
  end.

(** Modelled from the spec: the store after a history of calls (server code
    absent). *)
Definition execAll (hash : jsstring → jsstring) (s : Store) (ops : list Op)
  : Store :=
  foldl (exec hash) s ops.

End Repository.

(** ** A scenario: a psychologist, a patient and the form of two
    questions *)

Module Scenario.
Import Repository.

(** A stand-in for the password hash. *)
Definition hash (s : jsstring) : jsstring := rev s.

Definition history : list Op :=
  [ Register (js "drsilva") (js "segredo1") (js "Dra. Silva")
             (js "silva@bemestar.app") psychologist;
    Register (js "bruno") (js "segredo2") (js "Bruno")
             (js "bruno@bemestar.app") patient;
    CreateForm (js "1") (js "Humor") None [js "Q1"; js "Q2"] ].

(** The psychologist has id 1, the patient id 2, the form id 3 and its
    questions the ids 4 and 5. *)
Definition store : Store := execAll hash empty history.

Definition submitted : list Answer :=
  [ mkAnswer (js "4") (js "Q1") (js "A1");
    mkAnswer (js "5") (js "Q2") (js "A2") ].

(** The answer screen of the patient, both questions answered. *)
Definition screen : AnswerForm.State :=
  {| AnswerForm.routeId := js "3";
     AnswerForm.form :=
       Some {| AnswerForm.form_id := js "3";
               AnswerForm.title := js "Humor";
               AnswerForm.description := [];
               AnswerForm.questions :=
                 [ mkQuestion (js "4") (js "Q1") 0;
                   mkQuestion (js "5") (js "Q2") 1 ] |};
     AnswerForm.answers := {[ js "4" := js "A1"; js "5" := js "A2" ]};
     AnswerForm.token := Some (js "bearer") |}.

(** A later edit of the form by its owner: both questions reworded, the
    form assigned to another patient. *)
Definition edit : Op :=
  UpdateForm (js "3") (js "1")
    {| patch_title := js "Humor da semana";
       patch_description := None;
       patch_questions := [ mkQuestion (js "4") (js "Q1 (nova)") 0;
                            mkQuestion (js "5") (js "Q2 (nova)") 1 ];
       patch_assignedPatientIds := Some [js "9"] |}.

End Scenario.

(** ** Handlers that await several requests

    [handleDelete] of the psychologist's home awaits two requests in a row;
    such a handler is a tree of effects and requests. *)

Inductive Proc (E Req Rep : Type) : Type :=
| Done
| Do (e : E) (k : Proc E Req Rep)
| Ask (req : Req) (k : Rep → Proc E Req Rep).
Arguments Done {E Req Rep}.
Arguments Do {E Req Rep} e k.
Arguments Ask {E Req Rep} req k.

(** [await p; q] *)
Fixpoint andThen {E Req Rep} (p q : Proc E Req Rep) : Proc E Req Rep :=
  match p with
  | Done => q
  | Do e k => Do e (andThen k q)
  | Ask req k => Ask req (λ rep, andThen (k rep) q)
  end.

(** What is observed of a handler: its effects and its requests, in order. *)
Inductive Event (E Req : Type) : Type :=
| Did (e : E)
| Asked (req : Req).
Arguments Did {E Req} e.
Arguments Asked {E Req} req.

Fixpoint trace {E Req Rep} (server : Req → Rep) (p : Proc E Req Rep)
  : list (Event E Req) :=
  match p with
  | Done => []
  | Do e k => Did e :: trace server k
  | Ask req k => Asked req :: trace server (k (server req))
  end.

Definition requestsOf {E Req} (tr : list (Event E Req)) : list Req :=
  omap (λ ev, match ev with Asked req => Some req | Did _ => None end) tr.

(** ** More of EditForm: loading the form and the patients, the search box,
    the saving flag *)

Module EditScreen.

(** [setQuestions(qs)] *)
Definition setQuestions (st : EditForm.State) (qs : list Question)
  : EditForm.State :=
  {| EditForm.title := EditForm.title st;
     EditForm.description := EditForm.description st;
     EditForm.questions := qs;
     EditForm.assignedPatientIds := EditForm.assignedPatientIds st |}.

(** The fields [loadForm] reads of [response.data]; a field the server
    leaves out is [None]. *)
Record FormData := mkFormData {
  data_title : jsstring;
  data_description : option jsstring;
  data_questions : option (list Question);
  data_assignedPatients : option (list jsstring);
}.

Inductive LoadEffect :=
| LoadAlert (heading message : string)
| GoBackOrHome
| SetIsLoading (b : bool).

(** [loadForm]: the state after the reply ([None] when the request fails)
    and what the screen does. [description || ''], [questions || []],
    [assignedPatients || []]. *)
Definition loadForm (reply : option FormData) (st : EditForm.State)
  : EditForm.State * list LoadEffect :=
  match reply with
  | Some data =>
      ({| EditForm.title := data_title data;
          EditForm.description := default [] (data_description data);
          EditForm.questions := default [] (data_questions data);
          EditForm.assignedPatientIds :=
            default [] (data_assignedPatients data) |},
       [SetIsLoading false])
  | None =>
      (st, [LoadAlert "Erro" "Falha ao carregar formulário"; GoBackOrHome;
            SetIsLoading false])
  end.

(** A patient of the assignment list. *)
Record Patient := mkPatient {
  patient_id : jsstring;
  patient_name : jsstring;
  patient_email : jsstring;
  patient_username : jsstring;
}.

Inductive PatientsReply :=
| Loaded (data : list Patient)
| Failed (detail : option jsstring) (status : option N).

Inductive PatientsEffect :=
| SetPatientsError (m : Message)
| SetPatients (l : list Patient).

(** [detail || (status === 403 ? ... : ...)] *)
Definition patientsError (detail : option jsstring) (status : option N)
  : Message :=
  orElse detail
    (if bool_decide (status = Some 403%N)
     then "Apenas psicólogos podem listar pacientes"
     else "Falha ao carregar pacientes").

(** [loadPatients] *)
Definition loadPatients (token : option jsstring)
  : Handler PatientsEffect unit PatientsReply :=
  if AnswerForm.noToken token then Stop []
  else
    Await [SetPatientsError (Literal "")] ()
      (λ reply,
         match reply with
         | Loaded data => [SetPatients data]
         | Failed detail status =>
             [SetPatientsError (patientsError detail status); SetPatients []]
         end).

(** The error text and the list on the screen after some effects. *)
Definition patientsAfter (init : Message * list Patient)
    (tr : list PatientsEffect) : Message * list Patient :=
  foldl (λ acc e, match e with
                  | SetPatientsError m => (m, acc.2)
                  | SetPatients l => (acc.1, l)
                  end) init tr.

(** [s.startsWith(q)] *)
Fixpoint startsWith (s q : jsstring) : bool :=
  match q, s with
  | [], _ => true
  | c :: q', d :: s' => (c =? d)%N && startsWith s' q'
  | _ :: _, [] => false
  end.

(** [s.includes(q)] *)
Fixpoint includes (s q : jsstring) : bool :=
  startsWith s q ||
  match s with
  | [] => false
  | _ :: s' => includes s' q
  end.

Section Search.

(** [String.prototype.toLowerCase], a function of the platform. *)
Context (toLowerCase : jsstring → jsstring).

(** The rows of the assignment list:
    [patients.filter((p) => p.name.toLowerCase().includes(query.toLowerCase())
                          || p.email.toLowerCase().includes(query.toLowerCase()))] *)
Definition shownPatients (patientQuery : jsstring) (patients : list Patient)
  : list Patient :=
  filter (λ p, includes (toLowerCase (patient_name p))
                        (toLowerCase patientQuery)
               || includes (toLowerCase (patient_email p))
                           (toLowerCase patientQuery) = true) patients.

End Search.

(** The value of [isSaving] after some effects of [handleSubmit]. *)
Definition isSavingAfter (init : bool) (tr : list EditForm.Effect) : bool :=
  foldl (λ b e, match e with
                | EditForm.SetIsSaving b' => b'
                | _ => b
                end) init tr.

End EditScreen.

(** ** More of AnswerForm: the progress label and the submitting flag *)

Module AnswerScreen.

(** [Object.keys(answers).filter((k) => answers[k]?.trim()).length], the
    count shown as "n de m respondidas". *)
Definition answeredCount (answers : gmap jsstring jsstring) : nat :=
  length (filter (λ k, ¬ blank (default [] (answers !! k)))
                 (map_to_list answers).*1).

(** The value of [isSubmitting] after some effects of [handleSubmit]. *)
Definition isSubmittingAfter (init : bool) (tr : list AnswerForm.Effect)
  : bool :=
  foldl (λ b e, match e with
                | AnswerForm.SetIsSubmitting b' => b'
                | _ => b
                end) init tr.

End AnswerScreen.

(** ** More of the registration screen: the loading flag *)

Module RegisterScreen.

(** The value of [isLoading] after some effects of [handleRegister]. *)
Definition isLoadingAfter (init : bool) (tr : list Register.Effect) : bool :=
  foldl (λ b e, match e with
                | Register.SetIsLoading b' => b'
                | _ => b
                end) init tr.

(** The sessions saved and the screens navigated to. *)
Definition savedSessions (tr : list Register.Effect)
  : list (jsstring * Auth.User) :=
  omap (λ e, match e with
             | Register.SaveSession t u => Some (t, u)
             | _ => None
             end) tr.

(** The home screen of a role. *)
Definition homeOf (r : Role) : string :=
  match r with
  | patient => "/patient"
  | psychologist => "/psychologist"
  end.

Definition navigations (tr : list Register.Effect) : list string :=
  omap (λ e, match e with
             | Register.Replace path => Some path
             | _ => None
             end) tr.

End RegisterScreen.

(** ** More of AuthContext: restoring the session, [login] and [register] *)

Module Session.

(** What [JSON.parse] makes of a stored text: it throws, or returns a value
    that is [null] or a user. *)
Inductive Parsed :=
| Throws
| Value (u : option Auth.User).

(** [storedToken && storedUser]: a missing entry and the empty text are
    falsy. *)
Definition truthy (o : option jsstring) : bool :=
  match o with
  | Some (_ :: _) => true
  | _ => false
  end.

(** The provider as it mounts: [useState(null)], [useState(null)],
    [useState(true)], over what AsyncStorage holds. *)
Definition mount (storage : gmap jsstring jsstring) : Auth.State :=
  {| Auth.user := None; Auth.token := None; Auth.isLoading := true;
     Auth.storage := storage |}.

(** [loadStoredAuth]: [setToken] runs before [JSON.parse] is evaluated, so
    a stored user that does not parse leaves the token set; [finally] clears
    [isLoading]. *)
Definition loadStoredAuth (parse : jsstring → Parsed) (st : Auth.State)
  : Auth.State :=
  let storedToken := Auth.storage st !! js "token" in
  let storedUser := Auth.storage st !! js "user" in
  if truthy storedToken && truthy storedUser then
    match parse (default [] storedUser) with
    | Value userData =>
        {| Auth.user := userData; Auth.token := storedToken;
           Auth.isLoading := false; Auth.storage := Auth.storage st |}
    | Throws =>
        {| Auth.user := Auth.user st; Auth.token := storedToken;
           Auth.isLoading := false; Auth.storage := Auth.storage st |}
    end
  else
    {| Auth.user := Auth.user st; Auth.token := Auth.token st;
       Auth.isLoading := false; Auth.storage := Auth.storage st |}.

(** The reply to [POST /api/auth/login] and [POST /api/auth/register]. *)
Inductive Reply :=
| Granted (access_token : jsstring) (userData : Auth.User)
| Refused (detail : option jsstring).

(** [login]: the state after the call, or the message of the error it
    throws. *)
Definition login (stringify : Auth.User → jsstring) (reply : Reply)
    (st : Auth.State) : Auth.State + Message :=
  match reply with
  | Granted access_token userData =>
      inl (Auth.saveSession stringify access_token userData st)
  | Refused detail =>
      inr (orElse detail "Falha ao fazer login. Verifique suas credenciais.")
  end.

(** [register] *)
Definition register (stringify : Auth.User → jsstring) (reply : Reply)
    (st : Auth.State) : Auth.State + Message :=
  match reply with
  | Granted access_token userData =>
      inl (Auth.saveSession stringify access_token userData st)
  | Refused detail =>
      inr (orElse detail
             "Falha ao cadastrar. Verifique os dados e tente novamente.")
  end.

End Session.

(** ** The lists of responses (FormResponses and PatientHistory) *)

Module Responses.

(** [setExpandedId(expandedId === responseId ? null : responseId)] *)
Definition toggleExpand (expandedId : option jsstring) (responseId : jsstring)
  : option jsstring :=
  if bool_decide (expandedId = Some responseId) then None
  else Some responseId.

(** [const isExpanded = expandedId === item.id] *)
Definition isExpanded (expandedId : option jsstring) (itemId : jsstring)
  : bool :=
  bool_decide (expandedId = Some itemId).

End Responses.

(** ** PsychologistHome (the version with the access check) *)

Module PsychologistHome.

Record Form := mkForm {
  form_id : jsstring;
  title : jsstring;
  description : jsstring;
  questionCount : Z;
  responseCount : Z;
  createdAt : jsstring;
}.

Inductive Request :=
| GetForms
| DeleteForm (formId : jsstring).

(** A request resolves (with the list of forms, for [GetForms]) or is
    rejected with the [detail] and the [status] of the error, if any. *)
Inductive Reply :=
| Resolved (data : list Form)
| Rejected (detail : option jsstring) (status : option N).

Inductive Effect :=
| WindowAlert (m : Message)
| Alert (heading : string) (m : Message)
| WindowConfirm (question : string)
| AlertConfirm (heading question : string)
| Replace (path : string)
| SetForms (l : list Form)
| SetIsLoading (b : bool)
| SetIsDeletingId (i : option jsstring).

(** [detail || (status ? `Falha ao carregar (status ${status})`
                       : 'Falha ao carregar formulários')] *)
Definition loadError (detail : option jsstring) (status : option N)
  : Message :=
  match detail with
  | Some (c :: d) => Detail (c :: d)
  | _ =>
      match status with
      | Some (Npos n) =>
          Literal ("Falha ao carregar (status "
                   ++ NilZero.string_of_uint (N.to_uint (Npos n)) ++ ")")
      | _ => Literal "Falha ao carregar formulários"
      end
  end.

(** [loadForms] *)
Definition loadForms : Proc Effect Request Reply :=
  Ask GetForms
    (λ reply,
       match reply with
       | Resolved data => Do (SetForms data) (Do (SetIsLoading false) Done)
       | Rejected detail status =>
           Do (Alert "Erro" (loadError detail status))
              (Do (SetIsLoading false) Done)
       end).

(** [user?.role !== 'psychologist'] *)
Definition notPsychologist (user : option Auth.User) : bool :=
  match user with
  | Some u =>
      match Auth.role u with
      | Auth.psychologist => false
      | _ => true
      end
  | None => true
  end.

(** The effect on [user] and [token]. *)
Definition onSession (token : option jsstring) (user : option Auth.User)
    (web : bool) : Proc Effect Request Reply :=
  if AnswerForm.noToken token then Done
  else if notPsychologist user then
    Do (if web then WindowAlert (Literal "Acesso restrito a psicólogos")
        else Alert "Acesso restrito"
                   (Literal "Esta área é apenas para psicólogos"))
       (Do (Replace "/patient") Done)
  else loadForms.

(** The effect on focus. *)
Definition onFocus (token : option jsstring) (user : option Auth.User)
  : Proc Effect Request Reply :=
  if AnswerForm.noToken token || notPsychologist user then Done
  else Do (SetIsLoading true) loadForms.

Definition confirmation : string :=
  "Tem certeza que deseja excluir este formulário?".

(** [handleDelete] on the web or on a device; [confirmed] is the choice in
    the confirmation dialog. *)
Definition handleDelete (web confirmed : bool) (formId : jsstring)
  : Proc Effect Request Reply :=
  if web then
    Do (WindowConfirm confirmation)
       (if negb confirmed then Done
        else
          Do (SetIsDeletingId (Some formId))
             (Ask (DeleteForm formId)
                (λ reply,
                   andThen
                     match reply with
                     | Resolved _ =>
                         andThen loadForms
                           (Do (WindowAlert
                                  (Literal "Formulário excluído com sucesso"))
                               Done)
                     | Rejected detail _ =>
                         Do (WindowAlert
                               (orElse detail "Falha ao excluir formulário"))
                            Done
                     end
                     (Do (SetIsDeletingId None) Done))))
  else
    Do (AlertConfirm "Confirmar Exclusão" confirmation)
       (if confirmed then
          Do (SetIsDeletingId (Some formId))
             (Ask (DeleteForm formId)
                (λ reply,
                   andThen
                     match reply with
                     | Resolved _ =>
                         andThen loadForms
                           (Do (Alert "Sucesso"
                                  (Literal "Formulário excluído com sucesso"))
                               Done)
                     | Rejected detail _ =>
                         Do (Alert "Erro"
                               (orElse detail "Falha ao excluir formulário"))
                            Done
                     end
                     (Do (SetIsDeletingId None) Done)))
        else Done).

(** The value of [isDeletingId] after what was observed. *)
Definition isDeletingIdAfter (init : option jsstring)
    (tr : list (Event Effect Request)) : option jsstring :=
  foldl (λ i ev, match ev with
                 | Did (SetIsDeletingId i') => i'
                 | _ => i
                 end) init tr.

(** The forms on the screen after what was observed. *)
Definition formsAfter (init : list Form) (tr : list (Event Effect Request))
  : list Form :=
  foldl (λ l ev, match ev with
                 | Did (SetForms l') => l'
                 | _ => l
                 end) init tr.

End PsychologistHome.

(** ** PsychologistHome, the copy at app/psychologist/index.tsx (no access
    check) *)

Module PsychologistIndex.
Import PsychologistHome.

(** [loadForms] of this copy: one text for every failure. *)
Definition loadForms : Proc Effect Request Reply :=
  Ask GetForms
    (λ reply,
       match reply with
       | Resolved data => Do (SetForms data) (Do (SetIsLoading false) Done)
       | Rejected _ _ =>
           Do (Alert "Erro" (Literal "Falha ao carregar formulários"))
              (Do (SetIsLoading false) Done)
       end).

(** [useEffect(() => { loadForms(); }, [])]: neither the token nor the user
    of the session is looked at. *)
Definition onMount (token : option jsstring) (user : option Auth.User)
  : Proc Effect Request Reply :=
  loadForms.

End PsychologistIndex.

(** * Properties *)

(** ** Strings *)

Lemma falsy_true (s : jsstring) : falsy s = true ↔ s = [].
Proof. destruct s; simpl; split; congruence. Qed.

Lemma falsy_trim_blank (s : jsstring) : falsy (trim s) = true ↔ blank s.
Proof. apply falsy_true. Qed.

Lemma trimStart_nil (s : jsstring) :
  trimStart s = [] ↔ Forall (λ c, isWhiteSpace c = true) s.
Proof.
  induction s as [|c s IH]; simpl.
  - split; auto.
  - destruct (isWhiteSpace c) eqn:E.
    + rewrite IH. split; [intros; constructor; auto | inversion 1; auto].
    + split; [discriminate | inversion 1; congruence].
Qed.

(** Blank texts are the whitespace-only ones, the empty text included. *)
Lemma blank_whitespace (s : jsstring) :
  blank s ↔ Forall (λ c, isWhiteSpace c = true) s.
Proof.
  unfold blank, trim, trimEnd. split.
  - intros H. apply (f_equal (@rev N)) in H. rewrite rev_involutive in H.
    simpl in H. apply trimStart_nil in H.
    apply Forall_rev in H. rewrite rev_involutive in H.
    destruct (trimStart s) eqn:E; [by apply trimStart_nil|].
    exfalso. inversion H as [|? ? Hn _]; subst.
    clear -E Hn. induction s as [|c s IH]; simpl in E; [done|].
    destruct (isWhiteSpace c) eqn:Ec; [auto | congruence].
  - intros H. apply trimStart_nil in H. by rewrite H.
Qed.

(** ** EditForm *)

Section EditFormFacts.
Import EditForm.

Lemma toggleAssign_elem (s : list jsstring) (p x : jsstring) :
  x ∈ toggleAssign s p ↔
  if decide (x = p) then x ∉ s else x ∈ s.
Proof.
  unfold toggleAssign. case_bool_decide as Hp.
  - rewrite list_elem_of_filter.
    destruct (decide (x = p)) as [->|Hx]; [split; [tauto|done] | tauto].
  - rewrite elem_of_app, list_elem_of_singleton.
    destruct (decide (x = p)) as [->|Hx]; tauto.
Qed.

(** C8. [toggleAssign s p] flips exactly the membership of [p]: [p] is in
    the result iff it is not in [s], the membership of every other id is
    unchanged, and toggling [p] twice gives a list with the same members
    as [s]. *)
Theorem toggleAssign_flips (s : list jsstring) (p : jsstring) :
  (p ∈ toggleAssign s p ↔ p ∉ s) ∧
  (∀ x, x ≠ p → (x ∈ toggleAssign s p ↔ x ∈ s)) ∧
  (∀ x, x ∈ toggleAssign (toggleAssign s p) p ↔ x ∈ s).
Proof.
  split; [|split].
  - rewrite toggleAssign_elem. by rewrite decide_True.
  - intros x Hx. rewrite toggleAssign_elem. by rewrite decide_False.
  - intros x. rewrite toggleAssign_elem.
    destruct (decide (x = p)) as [->|Hx].
    + rewrite toggleAssign_elem, decide_True by done.
      split; [apply dec_stable | auto].
    + rewrite toggleAssign_elem, decide_False by done. done.
Qed.

(** C9. [updateQuestion qs i t] keeps the length and the positions of the
    list; at every position the id and the order are those of the original
    question, the text becomes [t] where the id is [i] and the question is
    unchanged elsewhere; with no question of id [i] the list is [qs]. *)
Theorem updateQuestion_frame (qs : list Question) (i t : jsstring) :
  length (updateQuestion qs i t) = length qs ∧
  (∀ n q, qs !! n = Some q →
     ∃ q', updateQuestion qs i t !! n = Some q' ∧
           id q' = id q ∧ order q' = order q ∧
           (id q = i → text q' = t) ∧ (id q ≠ i → q' = q)) ∧
  ((∀ q, q ∈ qs → id q ≠ i) → updateQuestion qs i t = qs).
Proof.
  unfold updateQuestion. split; [apply length_map|split].
  - intros n q Hq. eexists. split.
    + rewrite list_lookup_fmap, Hq. reflexivity.
    + case_bool_decide; simpl; repeat split; auto; done.
  - induction qs as [|q qs IH]; intros Hno; [done|]. simpl.
    rewrite bool_decide_eq_false_2 by (apply Hno; left).
    f_equal. apply IH. intros q' Hq'. apply Hno. by right.
Qed.

Lemma updateQuestion_frame_witness :
  let q := {| id := js "7"; text := js "old"; order := 0 |} in
  updateQuestion [q] (js "8") (js "new") = [q].
Proof.
  intros q. apply (updateQuestion_frame [q] (js "8") (js "new")).
  intros q' Hq'. apply list_elem_of_singleton in Hq'. subst q'.
  vm_compute. discriminate.
Defined.

Lemma invalid_invariant (st : State) : ¬ invalid st ↔ form_invariant st.
Proof.
  unfold invalid, form_invariant. rewrite Forall_Exists_neg. tauto.
Qed.

Lemma emptyQuestions_length (qs : list Question) :
  0 < length (filter (λ q, falsy (trim (text q)) = true) qs) ↔
  Exists (λ q, blank (text q)) qs.
Proof.
  induction qs as [|q qs IH]; simpl.
  - rewrite Exists_nil. lia.
  - rewrite filter_cons, Exists_cons, <- IH. case_decide as Hq.
    + apply falsy_trim_blank in Hq. simpl. split; [auto | lia].
    + rewrite falsy_trim_blank in Hq. tauto.
Qed.

(** C5. An edit reaches the server only when the form invariant holds: with
    a blank title, no question or a question of blank text, [handleSubmit]
    shows an error and issues no request; otherwise it issues exactly one
    update request, carrying the title, description, questions and
    assigned patients of the screen as they are. *)
Theorem handleSubmit_guards_invariant (st : State) :
  (invalid st →
     rejected (handleSubmit st) ∧ issued (handleSubmit st) = None) ∧
  (¬ invalid st →
     issued (handleSubmit st) =
       Some {| put_title := title st;
               put_description := description st;
               put_questions := questions st;
               put_assignedPatientIds := assignedPatientIds st |}) ∧
  (is_Some (issued (handleSubmit st)) → form_invariant st).
Proof.
  assert (Hcases :
    invalid st ∧ rejected (handleSubmit st) ∧
      issued (handleSubmit st) = None ∨
    ¬ invalid st ∧ issued (handleSubmit st) =
       Some {| put_title := title st;
               put_description := description st;
               put_questions := questions st;
               put_assignedPatientIds := assignedPatientIds st |}).
  { unfold handleSubmit, invalid, rejected.
    destruct (falsy (trim (title st))) eqn:Ht.
    { left. apply falsy_trim_blank in Ht. eauto 7. }
    assert (¬ blank (title st)) as Hnb
      by (rewrite <- falsy_trim_blank; congruence).
    case_bool_decide as Hlen.
    { left. apply length_zero_iff_nil in Hlen. eauto 7. }
    case_bool_decide as Hempty.
    { left. apply emptyQuestions_length in Hempty. eauto 7. }
    right. split; [|done].
    rewrite emptyQuestions_length in Hempty.
    rewrite <- length_zero_iff_nil. tauto. }
  destruct Hcases as [(Hi & Hr & Hq)|[Hv Hq]].
  - split; [auto | split; [tauto |]].
    rewrite Hq. by intros [? ?].
  - split; [tauto | split; [auto | intros _; by apply invalid_invariant]].
Qed.

Lemma handleSubmit_guards_invariant_witness :
  let q := {| id := js "1"; text := js "Como foi a semana?"; order := 0 |} in
  issued (handleSubmit (mkState (js "  ") (js "d") [q] [])) = None ∧
  issued (handleSubmit (mkState (js "Humor") (js "d") [q] [js "p1"]))
    = Some (mkPutBody (js "Humor") (js "d") [q] [js "p1"]).
Proof.
  intros q. split.
  - apply (handleSubmit_guards_invariant (mkState (js "  ") (js "d") [q] [])).
    left. vm_compute. reflexivity.
  - apply (handleSubmit_guards_invariant
             (mkState (js "Humor") (js "d") [q] [js "p1"])).
    apply invalid_invariant. repeat split.
    + vm_compute. discriminate.
    + discriminate.
    + repeat constructor. vm_compute. discriminate.
Defined.

End EditFormFacts.

(** ** AnswerForm *)

Section AnswerFormFacts.
Import AnswerForm.

Lemma falsy_or_blank (a : jsstring) :
  falsy a || falsy (trim a) = true ↔ blank a.
Proof.
  rewrite orb_true_iff, falsy_trim_blank, falsy_true.
  split; [intros [->|]; done | auto].
Qed.

Lemma unanswered_None (answers : gmap jsstring jsstring) q :
  unanswered answers q = None ↔ inheritedAnswer answers q.
Proof.
  unfold unanswered, read, inheritedAnswer.
  destruct (answers !! id q) as [a|].
  - split; [discriminate | by intros [? _]].
  - case_bool_decide as Hin.
    + split; [auto | done].
    + split; [discriminate | by intros [_ ?]].
Qed.

Lemma unanswered_Some (answers : gmap jsstring jsstring) q b :
  unanswered answers q = Some b → (b = true ↔ lacksAnswer answers q).
Proof.
  unfold unanswered, read, lacksAnswer.
  destruct (answers !! id q) as [a|].
  - intros [= <-]. apply falsy_or_blank.
  - case_bool_decide; [discriminate|]. by intros [= <-].
Qed.

(** The test throws exactly when some question has an inherited answer. *)
Lemma unansweredQuestions_None (answers : gmap jsstring jsstring) qs :
  unansweredQuestions answers qs = None ↔
  Exists (inheritedAnswer answers) qs.
Proof.
  induction qs as [|q qs IH]; simpl.
  - rewrite Exists_nil. split; [discriminate | done].
  - rewrite Exists_cons, <- IH, <- unanswered_None.
    destruct (unanswered answers q) as [b|]; [|tauto].
    destruct (unansweredQuestions answers qs); split;
      try discriminate; try tauto.
    intros [?|?]; discriminate.
Qed.

Lemma unansweredQuestions_Some (answers : gmap jsstring jsstring) qs l :
  unansweredQuestions answers qs = Some l →
  (0 < length l ↔ Exists (lacksAnswer answers) qs).
Proof.
  revert l. induction qs as [|q qs IH]; simpl; intros l.
  - intros [= <-]. rewrite Exists_nil. simpl. lia.
  - destruct (unanswered answers q) as [b|] eqn:Eq; [|discriminate].
    destruct (unansweredQuestions answers qs) as [rest|]; [|discriminate].
    intros [= <-]. rewrite Exists_cons, <- (IH rest eq_refl).
    rewrite <- (unanswered_Some _ _ _ Eq).
    destruct b; simpl; [split; [auto | lia]|].
    split; [auto | intros [?|?]; [discriminate | done]].
Qed.

Lemma unansweredQuestions_complete (answers : gmap jsstring jsstring) qs :
  Forall (λ q, ¬ lacksAnswer answers q) qs →
  unansweredQuestions answers qs = Some [].
Proof.
  induction 1 as [|q qs Hq _ IH]; simpl; [done|]. rewrite IH.
  unfold lacksAnswer in Hq. unfold unanswered, read.
  destruct (answers !! id q) as [a|]; [|tauto].
  destruct (falsy a || falsy (trim a)) eqn:E; [|done].
  apply falsy_or_blank in E. tauto.
Qed.

(** X23. The check of the answers, when no question has an inherited
    answer: if the answer to some question of the loaded form is missing or
    blank, [handleSubmit] stops with the validation error and issues no
    request; if every question has a non-blank answer the handler goes past
    this check, and issues the request once the patient holds a token and
    confirms. *)
Lemma handleSubmit_checks_answers (st : State) (f : FormData)
    (web confirmed : bool) :
  form st = Some f →
  (¬ Exists (inheritedAnswer (answers st)) (questions f) →
   Exists (lacksAnswer (answers st)) (questions f) →
     validationError (handleSubmit st web confirmed) ∧
     issued (handleSubmit st web confirmed) = None) ∧
  (Forall (λ q, ¬ lacksAnswer (answers st) q) (questions f) →
     ¬ validationError (handleSubmit st web confirmed) ∧
     issued (handleSubmit st web confirmed) =
       if noToken (token st) || negb confirmed then None
       else Some {| formId := routeId st;
                    post_answers :=
                      formattedAnswers (answers st) (questions f) |}).
Proof.
  intros Hf. unfold handleSubmit, validationError. rewrite Hf. split.
  - intros Hsafe Hlacks. rewrite <- unansweredQuestions_None in Hsafe.
    destruct (unansweredQuestions (answers st) (questions f)) as [l|] eqn:El;
      [|done].
    apply (unansweredQuestions_Some _ _ _ El) in Hlacks.
    rewrite bool_decide_eq_true_2 by done. destruct web; auto.
  - intros Hall. rewrite (unansweredQuestions_complete _ _ Hall). simpl.
    destruct (noToken (token st)), web, confirmed; simpl;
      (split; [intros [?|?]; discriminate | reflexivity]).
Qed.

Lemma handleSubmit_checks_answers_witness :
  let q1 := mkQuestion (js "1") (js "Q1") 0 in
  let q2 := mkQuestion (js "2") (js "Q2") 1 in
  let f := mkFormData (js "f") (js "Humor") [] [q1; q2] in
  issued (handleSubmit
            (mkState (js "f") (Some f) {[ js "1" := js "A1"; js "2" := js " " ]}
                     (Some (js "tok"))) true true) = None ∧
  issued (handleSubmit
            (mkState (js "f") (Some f) {[ js "1" := js "A1"; js "2" := js "A2" ]}
                     (Some (js "tok"))) true true)
    = Some (mkPostBody (js "f") [ mkAnswer (js "1") (js "Q1") (js "A1");
                                  mkAnswer (js "2") (js "Q2") (js "A2") ]).
Proof.
  intros q1 q2 f. split.
  - eapply (handleSubmit_checks_answers _ f true true); [reflexivity| |].
    + intros H. apply Exists_exists in H as (q & Hq & Hnone & _).
      destruct Hq as [<-|[<-|[]]]; vm_compute in Hnone; discriminate Hnone.
    + apply Exists_cons_tl, Exists_cons_hd. vm_compute. reflexivity.
  - match goal with |- issued (handleSubmit ?st _ _) = _ =>
      destruct (handleSubmit_checks_answers st f true true eq_refl)
        as [_ Hall]
    end.
    destruct Hall as [_ ->]; [|reflexivity].
    repeat constructor; vm_compute; discriminate.
Defined.

(** An inherited answer makes the handler throw: nothing is shown, nothing
    is sent. *)
Lemma handleSubmit_throws (st : State) (f : FormData) (web confirmed : bool) :
  form st = Some f →
  Exists (inheritedAnswer (answers st)) (questions f) →
  handleSubmit st web confirmed = Stop [Throw "TypeError"].
Proof.
  intros Hf Hin. unfold handleSubmit. rewrite Hf.
  apply unansweredQuestions_None in Hin. by rewrite Hin.
Qed.

(** C2. A question that lacks its answer does not always stop [handleSubmit]
    at the validation error: with one question whose id is [constructor]
    and nothing typed, the test of the answers reads the inherited property
    and throws; no validation error is shown (and no request issued), on
    the web and on a device. *)
Theorem handleSubmit_inherited_id_throws :
  let q := mkQuestion (js "constructor") (js "Q1") 0 in
  let st := mkState (js "f") (Some (mkFormData (js "f") (js "Humor") [] [q]))
                    ∅ (Some (js "bearer")) in
  lacksAnswer (answers st) q ∧
  ∀ web confirmed,
    handleSubmit st web confirmed = Stop [Throw "TypeError"] ∧
    ¬ validationError (handleSubmit st web confirmed) ∧
    issued (handleSubmit st web confirmed) = None.
Proof.
  intros q st. split; [exact I|]. intros web confirmed.
  assert (handleSubmit st web confirmed = Stop [Throw "TypeError"]) as ->.
  { apply (handleSubmit_throws st (mkFormData (js "f") (js "Humor") [] [q]));
      [reflexivity|].
    apply Exists_cons_hd. split; [reflexivity|].
    apply (bool_decide_unpack _). vm_compute. exact I. }
  split; [reflexivity|]. split; [|reflexivity].
  intros [H|H]; discriminate H.
Qed.

End AnswerFormFacts.

(** ** AuthContext *)

Section AuthFacts.
Import Auth.

(** C10. After [logout] the session holds neither token nor user and
    AsyncStorage has no ['token'] and no ['user'] entry, whatever the state
    before; a second [logout] changes nothing. *)
Theorem logout_clears (st : State) :
  token (logout st) = None ∧ user (logout st) = None ∧
  storage (logout st) !! js "token" = None ∧
  storage (logout st) !! js "user" = None ∧
  logout (logout st) = logout st.
Proof.
  unfold logout; simpl. repeat split.
  - rewrite lookup_delete_ne by (vm_compute; discriminate).
    apply lookup_delete_eq.
  - apply lookup_delete_eq.
  - f_equal. apply map_eq. intros k.
    rewrite !lookup_delete. repeat case_decide; done.
Qed.

(** C6. The [User] of the client allows a third role, ['patiente'], that is
    neither psychologist nor patient. *)
Theorem User_role_patiente :
  let u := mkUser (js "1") (js "ana") (js "Ana") (js "ana@bemestar.app")
                  patiente in
  role u ≠ psychologist ∧ role u ≠ patient.
Proof. split; discriminate. Qed.

End AuthFacts.

(** ** Repository: visibility of forms *)

Section VisibilityFacts.
Import Repository.

Lemma visible_spec (f : Form) (p : jsstring) :
  visible f p = true ↔ assignedPatientIds f = [] ∨ p ∈ assignedPatientIds f.
Proof.
  unfold visible.
  by rewrite orb_true_iff, !bool_decide_eq_true.
Qed.

(** C4. [listFormsForPatient s p] holds exactly the forms of the store
    whose [assignedPatientIds] is empty or contains [p]: a form with
    assigned patients is listed iff [p] is one of them, and a form with
    none is listed for every patient. *)
Theorem listFormsForPatient_visible (s : Store) (p : jsstring) :
  (∀ f, f ∈ listFormsForPatient s p ↔
        f ∈ forms s ∧ (assignedPatientIds f = [] ∨ p ∈ assignedPatientIds f)) ∧
  (∀ f, f ∈ forms s → assignedPatientIds f ≠ [] →
        (f ∈ listFormsForPatient s p ↔ p ∈ assignedPatientIds f)) ∧
  (∀ f, f ∈ forms s → assignedPatientIds f = [] →
        ∀ p', f ∈ listFormsForPatient s p').
Proof.
  unfold listFormsForPatient. split; [|split].
  - intros f. rewrite list_elem_of_filter, visible_spec. tauto.
  - intros f Hf Hne. rewrite list_elem_of_filter, visible_spec. tauto.
  - intros f Hf He p'. rewrite list_elem_of_filter, visible_spec. tauto.
Qed.

Lemma listFormsForPatient_visible_witness :
  let open := mkForm (js "3") (js "Humor") None
                [mkQuestion (js "4") (js "Q1") 0] (js "1") [] in
  let assigned := mkForm (js "5") (js "Sono") None
                    [mkQuestion (js "6") (js "Q1") 0] (js "1") [js "2"] in
  let s := mkStore [] [open; assigned] [] 7 in
  open ∈ listFormsForPatient s (js "8") ∧
  assigned ∈ listFormsForPatient s (js "2") ∧
  assigned ∉ listFormsForPatient s (js "8").
Proof.
  intros open assigned s.
  destruct (listFormsForPatient_visible s (js "8")) as (_ & Hsome & Hnone).
  destruct (listFormsForPatient_visible s (js "2")) as (_ & Hsome' & _).
  split; [|split].
  - apply Hnone; [apply elem_of_cons; by left | reflexivity].
  - apply Hsome'; [apply elem_of_cons; right; apply elem_of_cons; by left
                  | discriminate | apply elem_of_cons; by left].
  - rewrite Hsome; [| apply elem_of_cons; right; apply elem_of_cons; by left
                    | discriminate].
    intros Hin. apply list_elem_of_singleton in Hin. vm_compute in Hin.
    discriminate.
Defined.

End VisibilityFacts.

(** ** Repository: calls and their results *)

Section ResultFacts.
Import Repository.

Lemma bind_Ok {A B} (r : Result A) (k : A → Result B) (b : B) :
  r ≫= k = Ok b ↔ ∃ a, r = Ok a ∧ k a = Ok b.
Proof.
  destruct r as [a|e]; simpl; split.
  - eauto.
  - by intros (a' & [= ->] & ?).
  - discriminate.
  - by intros (a' & [=] & ?).
Qed.

Lemma require_Ok (b : bool) (e : Error) (u : unit) :
  require b e = Ok u ↔ b = true.
Proof. destruct b, u; simpl; split; congruence. Qed.

Lemma orFail_Ok {A} (o : option A) (e : Error) (a : A) :
  orFail o e = Ok a ↔ o = Some a.
Proof. destruct o; simpl; split; congruence. Qed.

(** What an accepted submission has checked and what it stores. *)
Lemma submitResponse_Ok s fid p submitted now s' r :
  submitResponse s fid p submitted now = Ok (s', r) ↔
  ∃ f, checkSubmission s fid p submitted = Ok f ∧
       responsesOf s fid p = [] ∧
       r = {| response_id := idOf (nextId s); formId := fid;
              patientId := p; formTitle := title f;
              answers :=
                (λ q, {| questionId := id q; questionText := text q;
                         answerText :=
                           default [] (answerFor submitted (id q)) |})
                  <$> questions f;
              submittedAt := now |} ∧
       s' = {| users := users s; forms := forms s;
               responses := responses s ++ [r];
               nextId := N.succ (nextId s) |}.
Proof.
  unfold submitResponse. rewrite bind_Ok.
  split.
  - intros (f & Hf & H). apply bind_Ok in H as (u & Hu & H).
    apply require_Ok, bool_decide_eq_true in Hu.
    injection H as <- <-. eauto.
  - intros (f & Hf & Hnone & -> & ->). exists f. split; [done|].
    apply bind_Ok. exists (). split; [|done].
    by apply require_Ok, bool_decide_eq_true.
Qed.



(** Only [submitResponse] touches the responses, and only by appending. *)
Lemma exec_responses hash s op :
  responses (exec hash s op) = responses s ∨
  ∃ fid p submitted now r,
    op = SubmitResponse fid p submitted now ∧
    submitResponse s fid p submitted now = Ok (exec hash s op, r) ∧
    responses (exec hash s op) = responses s ++ [r].
Proof.
  destruct op as [u pw n e ro|o t d qs|fid c pa|fid c|fid p a now]; simpl.
  - unfold register.
    repeat (match goal with
            | |- context [require ?b ?e] => destruct b; simpl
            end; auto).
  - unfold createForm. destruct (validForm t qs); simpl; auto.
  - unfold updateForm. destruct (findForm s fid); simpl; auto.
    repeat (match goal with
            | |- context [require ?b ?e] => destruct b; simpl
            end; auto).
  - unfold deleteForm. destruct (findForm s fid); simpl; auto.
    repeat (match goal with
            | |- context [require ?b ?e] => destruct b; simpl
            end; auto).
  - destruct (submitResponse s fid p a now) as [[s' r]|err] eqn:E;
      simpl; auto.
    right. exists fid, p, a, now, r. repeat split; auto.
    apply submitResponse_Ok in E as (f & _ & _ & _ & ->). done.
Qed.




(** Responses are never removed. *)
Lemma execAll_responses_kept hash ops s r :
  r ∈ responses s → r ∈ responses (execAll hash s ops).
Proof.
  revert s. induction ops as [|op ops IH]; intros s Hr; [done|].
  simpl. apply IH.
  destruct (exec_responses hash s op) as [->|(? & ? & ? & ? & ? & _ & _ & ->)];
    [done|]. apply elem_of_app. by left.
Qed.


End ResultFacts.

(** ** Repository: one response per form and patient *)

Section UniquenessFacts.
Import Repository.




End UniquenessFacts.

(** ** From the answer screen to the stored response *)

Section SnapshotFacts.
Import Repository.

Lemma formattedAnswers_pairs (m : gmap jsstring jsstring) (qs : list Question) :
  Forall (λ q, ¬ AnswerForm.lacksAnswer m q) qs →
  Forall2 (λ q a, questionId a = id q ∧ questionText a = text q ∧
                  m !! id q = Some (answerText a) ∧ ¬ blank (answerText a))
          qs (AnswerForm.formattedAnswers m qs).
Proof.
  induction 1 as [|q qs Hq _ IH]; simpl; constructor; [|exact IH].
  unfold AnswerForm.lacksAnswer in Hq. simpl.
  destruct (m !! id q); [auto | tauto].
Qed.

(** Looking a question up in the formatted answers finds the answer typed
    for its id. *)
Lemma answerFor_formattedAnswers m qs q :
  q ∈ qs →
  answerFor (AnswerForm.formattedAnswers m qs) (id q)
    = Some (default [] (m !! id q)).
Proof.
  unfold answerFor. induction qs as [|q0 qs IH]; intros Hq.
  - by apply elem_of_nil in Hq.
  - simpl. case_bool_decide as Hid; simpl.
    + by rewrite Hid.
    + apply IH. apply elem_of_cons in Hq as [->|Hq]; [done|exact Hq].
Qed.

Lemma formattedAnswers_answered m qs :
  Forall (λ q, ¬ AnswerForm.lacksAnswer m q) qs →
  forallb (answered (AnswerForm.formattedAnswers m qs)) qs = true.
Proof.
  intros Hall. apply forallb_forall. intros q Hq.
  rewrite Forall_forall in Hall. specialize (Hall q Hq).
  apply list_elem_of_In in Hq.
  unfold answered. rewrite answerFor_formattedAnswers by done.
  unfold AnswerForm.lacksAnswer in Hall.
  destruct (m !! id q); simpl; [by apply bool_decide_eq_true | tauto].
Qed.

Lemma formattedAnswers_stored m qs :
  (λ q, {| questionId := id q; questionText := text q;
           answerText :=
             default [] (answerFor (AnswerForm.formattedAnswers m qs) (id q)) |})
    <$> qs
  = AnswerForm.formattedAnswers m qs.
Proof.
  unfold AnswerForm.formattedAnswers at 2.
  apply list_fmap_ext. intros i q Hq.
  rewrite answerFor_formattedAnswers; [done|].
  by apply list_elem_of_lookup_2 in Hq.
Qed.

(** C3. A patient who sees form [F] of the store on the answer screen, has
    answered every question and confirms, sends one answer per question of
    the form, in the order of the form, each with the id and the text of
    its question and the answer typed for it. The repository accepts the
    submission and stores exactly this list, and after any later calls,
    edits of the form included, [listResponsesForForm] still returns the
    response with the same list. *)
Theorem answers_snapshot (hash : jsstring → jsstring) (s : Store)
    (F : Form) (u : User) (p : jsstring)
    (st : AnswerForm.State) (shown : AnswerForm.FormData)
    (web : bool) (now : N) :
  findForm s (AnswerForm.routeId st) = Some F →
  AnswerForm.form st = Some shown →
  AnswerForm.questions shown = questions F →
  Forall (λ q, ¬ AnswerForm.lacksAnswer (AnswerForm.answers st) q)
         (questions F) →
  AnswerForm.noToken (AnswerForm.token st) = false →
  findUser s p = Some u → role u = patient →
  visible F p = true →
  responsesOf s (AnswerForm.routeId st) p = [] →
  ∃ body s' r,
    issued (AnswerForm.handleSubmit st web true) = Some body ∧
    AnswerForm.formId body = AnswerForm.routeId st ∧
    Forall2 (λ q a, questionId a = id q ∧ questionText a = text q ∧
                    AnswerForm.answers st !! id q = Some (answerText a) ∧
                    ¬ blank (answerText a))
            (questions F) (AnswerForm.post_answers body) ∧
    submitResponse s (AnswerForm.routeId st) p
                   (AnswerForm.post_answers body) now = Ok (s', r) ∧
    answers r = AnswerForm.post_answers body ∧
    ∀ ops F',
      findForm (execAll hash s' ops) (AnswerForm.routeId st) = Some F' →
      ∃ l v,
        listResponsesForForm (execAll hash s' ops) (AnswerForm.routeId st)
                             (ownerPsychologistId F') = Ok l ∧
        v ∈ l ∧ view_id v = response_id r ∧ view_patientId v = p ∧
        view_answers v = AnswerForm.post_answers body.
Proof.
  intros HF Hshown Hqs Hall Htok Hu Hrole Hvis Hnone.
  set (fid := AnswerForm.routeId st) in *.
  set (sent := AnswerForm.formattedAnswers (AnswerForm.answers st) (questions F)).
  assert (Hissued : issued (AnswerForm.handleSubmit st web true)
                    = Some (AnswerForm.mkPostBody fid sent)).
  { unfold AnswerForm.handleSubmit. rewrite Hshown, Hqs.
    rewrite (unansweredQuestions_complete _ _ Hall). simpl.
    rewrite Htok. by destruct web. }
  assert (Hchecked : checkSubmission s fid p sent = Ok F).
  { unfold checkSubmission. rewrite Hu, HF. simpl. rewrite Hrole.
    rewrite bool_decide_eq_true_2 by done.
    unfold sent. rewrite formattedAnswers_answered by done. simpl.
    by rewrite Hvis. }
  destruct (submitResponse s fid p sent now) as [[s' r]|e] eqn:Hsub; cycle 1.
  { exfalso. unfold submitResponse in Hsub. rewrite Hchecked in Hsub.
    simpl in Hsub. rewrite bool_decide_eq_true_2 in Hsub by done.
    discriminate. }
  exists (AnswerForm.mkPostBody fid sent), s', r. simpl.
  apply submitResponse_Ok in Hsub as (F0 & HF0 & _ & Hr & Hs').
  assert (F0 = F) as -> by congruence.
  assert (answers r = sent) as Hanswers.
  { rewrite Hr. simpl. apply formattedAnswers_stored. }
  repeat split; try done.
  - by apply formattedAnswers_pairs.
  - apply submitResponse_Ok. eauto.
  - intros ops F' HF'. unfold listResponsesForForm. rewrite HF'. simpl.
    rewrite bool_decide_eq_true_2 by done. simpl.
    eexists _, (view (execAll hash s' ops) r).
    split; [reflexivity|]. split.
    + apply list_elem_of_fmap. exists r. split; [done|].
      apply list_elem_of_filter. split; [by rewrite Hr|].
      apply execAll_responses_kept. rewrite Hs'. simpl.
      apply elem_of_app. right. by apply list_elem_of_singleton.
    + simpl. rewrite Hanswers. split; [done|]. split; [|done].
      by rewrite Hr.
Qed.

(** The edit of the scenario does reword the questions of the form. *)
Lemma edit_rewords_questions :
  (λ f, text <$> questions f)
    <$> findForm (exec Scenario.hash Scenario.store Scenario.edit) (js "3")
  = Some [js "Q1 (nova)"; js "Q2 (nova)"].
Proof. vm_compute. reflexivity. Qed.

Lemma answers_snapshot_witness :
  ∃ s' r l,
    submitResponse Scenario.store (js "3") (js "2") Scenario.submitted 100
      = Ok (s', r) ∧
    answers r = Scenario.submitted ∧
    listResponsesForForm (execAll Scenario.hash s' [Scenario.edit])
                         (js "3") (js "1") = Ok l ∧
    Scenario.submitted ∈ view_answers <$> l.
Proof.
  edestruct answers_snapshot
    with (hash := Scenario.hash) (s := Scenario.store) (p := js "2")
         (st := Scenario.screen) (web := true) (now := 100%N)
    as (body & s' & r & Hbody & _ & _ & Hsub & Hr & Hlater);
    [vm_compute; reflexivity | reflexivity | reflexivity
    | repeat constructor; vm_compute; discriminate
    | reflexivity | vm_compute; reflexivity | reflexivity
    | reflexivity | vm_compute; reflexivity |].
  vm_compute in Hbody. injection Hbody as <-.
  change (AnswerForm.routeId Scenario.screen) with (js "3") in *.
  change (AnswerForm.post_answers _) with Scenario.submitted in *.
  assert (∃ F', findForm (execAll Scenario.hash s' [Scenario.edit]) (js "3")
                = Some F' ∧ ownerPsychologistId F' = js "1")
    as (F' & HF' & Howner).
  { apply submitResponse_Ok in Hsub as (_ & _ & _ & _ & ->).
    eexists. split; vm_compute; reflexivity. }
  destruct (Hlater [Scenario.edit] F' HF') as (l & v & Hl & Hv & _ & _ & Hva).
  exists s', r, l. rewrite <- Howner.
  split; [done|]. split; [done|]. split; [done|].
  apply list_elem_of_fmap. eauto.
Defined.

End SnapshotFacts.

(** ** Registration *)

Section RegisterFacts.

Lemma falsy_false (s : jsstring) : falsy s = false ↔ s ≠ [].
Proof. destruct s; simpl; split; congruence. Qed.

Lemma register_validation hash s username password name email role :
  invalidRegistration username password name email ↔
  Repository.register hash s username password name email role
    = Repository.Err Repository.ValidationError.
Proof.
  unfold Repository.register, invalidRegistration.
  destruct (bool_decide (length username < 3)
            || bool_decide (length password < 6)
            || bool_decide (blank username) || bool_decide (blank password)
            || bool_decide (blank name) || bool_decide (blank email)) eqn:E.
  - simpl. rewrite !orb_true_iff, !bool_decide_eq_true in E. tauto.
  - simpl. rewrite !orb_false_iff, !bool_decide_eq_false in E.
    split; [tauto|].
    destruct (existsb _ _); simpl; discriminate.
Qed.

(** C7. The registration screen shows an error and sends no request when
    a required field is empty, the username has fewer than 3 characters or
    the password fewer than 6; otherwise it sends the five fields as typed.
    The repository answers ValidationError when the username has fewer than
    3 characters, the password fewer than 6 or a required field is blank,
    ConflictError when the input is valid and the username is taken, and
    otherwise creates the user and returns a token for it and the user. *)
Theorem register_checks (hash : jsstring → jsstring)
    (s : Repository.Store) (st : Register.State) :
  let sent := {| Register.body_username := Register.username st;
                 Register.body_password := Register.password st;
                 Register.body_name := Register.name st;
                 Register.body_email := Register.email st;
                 Register.body_role := Register.role st |} in
  let invalid := invalidRegistration (Register.username st)
                   (Register.password st) (Register.name st)
                   (Register.email st) in
  let taken := ∃ u, u ∈ Repository.users s ∧
                    Repository.username u = Register.username st in
  let result := Repository.register hash s (Register.username st)
                  (Register.password st) (Register.name st)
                  (Register.email st) (Register.role st) in
  (Register.refusedByScreen st →
     invalid ∧ Register.rejected (Register.handleRegister st) ∧
     issued (Register.handleRegister st) = None) ∧
  (¬ Register.refusedByScreen st →
     issued (Register.handleRegister st) = Some sent) ∧
  (invalid → result = Repository.Err Repository.ValidationError) ∧
  (¬ invalid → taken → result = Repository.Err Repository.ConflictError) ∧
  (¬ invalid → ¬ taken →
     ∃ s' token user,
       result = Repository.Ok (s', (token, user)) ∧
       Repository.users s' = Repository.users s ++ [user] ∧
       Repository.forms s' = Repository.forms s ∧
       Repository.responses s' = Repository.responses s ∧
       Repository.username user = Register.username st ∧
       Repository.passwordHash user = hash (Register.password st) ∧
       Repository.name user = Register.name st ∧
       Repository.email user = Register.email st ∧
       Repository.role user = Register.role st ∧
       Repository.subject token = Repository.user_id user ∧
       Repository.token_role token = Register.role st).
Proof.
  intros sent invalid taken result.
  assert (Htaken : taken ↔
            existsb (λ u, bool_decide (Repository.username u
                                       = Register.username st))
                    (Repository.users s) = true).
  { unfold taken. rewrite existsb_exists. split.
    - intros (u & Hu & Hn). exists u.
      by rewrite <- list_elem_of_In, bool_decide_eq_true.
    - intros (u & Hu & Hn). exists u.
      split; [by apply list_elem_of_In | by apply bool_decide_eq_true in Hn]. }
  split; [|split; [|split; [|split]]].
  - intros Href. split.
    + unfold invalid, invalidRegistration, blank.
      destruct Href as [->|[->|[->|[->|[?|?]]]]]; auto 7.
    + unfold Register.handleRegister, Register.rejected.
      destruct (falsy (Register.username st) || falsy (Register.password st)
                || falsy (Register.name st) || falsy (Register.email st))
        eqn:E; [eauto|].
      rewrite !orb_false_iff, !falsy_false in E.
      case_bool_decide; [eauto|]. case_bool_decide; [eauto|].
      unfold Register.refusedByScreen in Href. exfalso. tauto.
  - intros Hok. unfold Register.handleRegister, Register.refusedByScreen in *.
    destruct (falsy (Register.username st) || falsy (Register.password st)
              || falsy (Register.name st) || falsy (Register.email st))
      eqn:E.
    { rewrite !orb_true_iff, !falsy_true in E. exfalso. tauto. }
    case_bool_decide; [exfalso; tauto|].
    case_bool_decide; [exfalso; tauto|]. reflexivity.
  - apply register_validation.
  - intros Hvalid Ht. apply Htaken in Ht.
    pose proof (register_validation hash s (Register.username st)
                  (Register.password st) (Register.name st)
                  (Register.email st) (Register.role st)) as Hv.
    unfold result, Repository.register in *.
    destruct (_ || _) eqn:E; simpl in *; [exfalso; tauto|].
    by rewrite Ht.
  - intros Hvalid Hfree. rewrite Htaken, not_true_iff_false in Hfree.
    pose proof (register_validation hash s (Register.username st)
                  (Register.password st) (Register.name st)
                  (Register.email st) (Register.role st)) as Hv.
    unfold result, Repository.register in *.
    destruct (_ || _) eqn:E; simpl in *; [exfalso; tauto|].
    rewrite Hfree. simpl. eexists _, _, _.
    split; [reflexivity|]. simpl. repeat split.
Qed.

Lemma register_checks_witness :
  issued (Register.handleRegister
            (Register.mkState (js "carla") (js "segredo3") []
                              (js "carla@bemestar.app") patient)) = None ∧
  Repository.register Scenario.hash Scenario.store (js "bruno")
    (js "segredo3") (js "Bruno B.") (js "bb@bemestar.app") patient
    = Repository.Err Repository.ConflictError ∧
  ∃ s' token user,
    Repository.register Scenario.hash Scenario.store (js "carla")
      (js "segredo3") (js "Carla") (js "carla@bemestar.app") patient
      = Repository.Ok (s', (token, user)) ∧
    Repository.subject token = Repository.user_id user.
Proof.
  split; [|split].
  - apply (register_checks Scenario.hash Scenario.store
             (Register.mkState (js "carla") (js "segredo3") []
                               (js "carla@bemestar.app") patient)).
    right; right; left. reflexivity.
  - apply (register_checks Scenario.hash Scenario.store
             (Register.mkState (js "bruno") (js "segredo3") (js "Bruno B.")
                               (js "bb@bemestar.app") patient)).
    + intros [H|[H|[H|[H|[H|H]]]]]; vm_compute in H; (lia || discriminate).
    + eexists. split.
      * apply list_elem_of_In. vm_compute. right; left. reflexivity.
      * reflexivity.
  - destruct (register_checks Scenario.hash Scenario.store
                (Register.mkState (js "carla") (js "segredo3") (js "Carla")
                                  (js "carla@bemestar.app") patient))
      as (_ & _ & _ & _ & Hcreate).
    destruct Hcreate as (s' & token & user & Hok & Hrest).
    + intros [H|[H|[H|[H|[H|H]]]]]; vm_compute in H; (lia || discriminate).
    + intros (u & Hu & Hname). apply list_elem_of_In in Hu.
      vm_compute in Hu. destruct Hu as [<-|[<-|[]]]; discriminate.
    + exists s', token, user. split; [exact Hok|].
      apply Hrest.
Defined.

(** The registration screen sends a request although a required field is
    blank: the name is one space, which the check [!name] lets through. *)
Lemma register_blank_name_sent :
  let st := Register.mkState (js "carla") (js "segredo3") (js " ")
                             (js "carla@bemestar.app") patient in
  blank (Register.name st) ∧
  issued (Register.handleRegister st)
    = Some (Register.mkBody (js "carla") (js "segredo3") (js " ")
                            (js "carla@bemestar.app") patient) ∧
  ¬ (invalidRegistration (Register.username st) (Register.password st)
                         (Register.name st) (Register.email st) →
     issued (Register.handleRegister st) = None).
Proof.
  intros st. split; [reflexivity|]. split; [reflexivity|].
  intros Hclaim.
  assert (issued (Register.handleRegister st) = None) as Hnone.
  { apply Hclaim. do 4 right. left. reflexivity. }
  discriminate Hnone.
Qed.

End RegisterFacts.

(** * Further properties of the client *)

(** ** EditForm: editing the list of questions *)

Section QuestionListFacts.
Import EditForm.

(** The two outcomes of [handleSubmit]. *)
Lemma handleSubmit_invalid (st : State) :
  invalid st → ∃ message, handleSubmit st = Stop [Alert "Erro" message].
Proof.
  unfold handleSubmit, invalid. intros Hinv.
  destruct (falsy (trim (title st))) eqn:Ht; [eauto|].
  case_bool_decide as Hlen; [eauto|].
  case_bool_decide as Hempty; [eauto|].
  exfalso. rewrite emptyQuestions_length in Hempty.
  rewrite <- not_true_iff_false, falsy_trim_blank in Ht.
  rewrite length_zero_iff_nil in Hlen. tauto.
Qed.

Lemma handleSubmit_valid (st : State) :
  ¬ invalid st →
  handleSubmit st =
    Await [SetIsSaving true]
      {| put_title := title st;
         put_description := description st;
         put_questions := questions st;
         put_assignedPatientIds := assignedPatientIds st |}
      (λ ok,
         [ if ok : bool
           then Alert "Sucesso" "Questionário atualizado com sucesso"
           else Alert "Erro" "Falha ao atualizar questionário";
           SetIsSaving false ]).
Proof.
  unfold handleSubmit, invalid. intros Hok.
  destruct (falsy (trim (title st))) eqn:Ht.
  { apply falsy_trim_blank in Ht. tauto. }
  case_bool_decide as Hlen.
  { apply length_zero_iff_nil in Hlen. tauto. }
  case_bool_decide as Hempty; [|reflexivity].
  apply emptyQuestions_length in Hempty. tauto.
Qed.

(** X1. A question just added has an empty text, so the form cannot be saved
    before it is filled in: after [addQuestion], whatever the clock reading
    and the rest of the screen, [handleSubmit] shows an error and issues no
    request. *)
Theorem addQuestion_blocks_save (st : State) (now : jsstring) :
  let st' := EditScreen.setQuestions st (addQuestion (questions st) now) in
  rejected (handleSubmit st') ∧ issued (handleSubmit st') = None.
Proof.
  intros st'.
  destruct (handleSubmit_invalid st') as [message Hm].
  - right; right. unfold st', addQuestion. simpl.
    apply Exists_app. right. apply Exists_cons_hd. reflexivity.
  - split; [by exists message | by rewrite Hm].
Qed.

Lemma updateQuestion_other (qs : list Question) (i t : jsstring) :
  (∀ q, q ∈ qs → id q ≠ i) → updateQuestion qs i t = qs.
Proof.
  unfold updateQuestion. induction qs as [|q qs IH]; intros Hno; [done|].
  simpl. rewrite bool_decide_eq_false_2 by (apply Hno; left).
  f_equal. apply IH. intros q' Hq'. apply Hno. by right.
Qed.

Lemma removeQuestion_other (qs : list Question) (i : jsstring) :
  (∀ q, q ∈ qs → id q ≠ i) → removeQuestion qs i = qs.
Proof.
  unfold removeQuestion. induction qs as [|q qs IH]; intros Hno; [done|].
  rewrite filter_cons_True by (apply Hno; left).
  f_equal. apply IH. intros q' Hq'. apply Hno. by right.
Qed.

(** X2. When the clock reading is not yet the id of a question, the question
    added under it can be edited and removed on its own: [updateQuestion]
    with this id changes the text of the new question and nothing else, and
    [removeQuestion] with this id gives back the list as it was before
    [addQuestion]. *)
Theorem addQuestion_fresh (qs : list Question) (now t : jsstring) :
  (∀ q, q ∈ qs → id q ≠ now) →
  updateQuestion (addQuestion qs now) now t
    = qs ++ [ {| id := now; text := t; order := Z.of_nat (length qs) |} ] ∧
  removeQuestion (addQuestion qs now) now = qs.
Proof.
  intros Hfresh. unfold addQuestion. split.
  - unfold updateQuestion. rewrite map_app. simpl.
    rewrite bool_decide_eq_true_2 by done. f_equal.
    by apply updateQuestion_other.
  - unfold removeQuestion. rewrite list.filter_app.
    rewrite filter_cons_False, filter_nil by (simpl; tauto).
    rewrite app_nil_r. by apply removeQuestion_other.
Qed.

Lemma addQuestion_fresh_witness :
  let q := mkQuestion (js "1700000000000") (js "Como dormiu?") 0 in
  removeQuestion (addQuestion [q] (js "1700000000001")) (js "1700000000001")
    = [q].
Proof.
  intros q. apply (addQuestion_fresh [q] (js "1700000000001") []).
  intros q' Hq'. apply list_elem_of_singleton in Hq'. subst q'.
  vm_compute. discriminate.
Defined.

(** X3. Two questions added under the same clock reading share their id and
    cannot be told apart afterwards: [updateQuestion] with that id gives
    both the new text, and [removeQuestion] with that id removes both (and
    any earlier question of that id). *)
Theorem addQuestion_same_reading (qs : list Question) (now t : jsstring) :
  let twice := addQuestion (addQuestion qs now) now in
  updateQuestion twice now t
    = updateQuestion qs now t
      ++ [ {| id := now; text := t; order := Z.of_nat (length qs) |};
           {| id := now; text := t; order := Z.of_nat (S (length qs)) |} ] ∧
  removeQuestion twice now = removeQuestion qs now.
Proof.
  intros twice. unfold twice, addQuestion. split.
  - unfold updateQuestion. rewrite !map_app. simpl.
    rewrite bool_decide_eq_true_2 by done.
    rewrite length_app. simpl. rewrite Nat.add_1_r.
    by rewrite <- app_assoc.
  - unfold removeQuestion. rewrite !list.filter_app.
    rewrite !filter_cons_False, !filter_nil by (simpl; tauto).
    by rewrite !app_nil_r.
Qed.

(** X4. Loading and saving without an edit: a loaded form with a non-blank
    title and at least one question, none of blank text, is sent back by
    [handleSubmit] exactly as loaded, the missing description as the empty
    text and the list the server calls [assignedPatients] under the name
    [assignedPatientIds]; a loaded form without questions cannot be saved. *)
Theorem loadForm_then_save (data : EditScreen.FormData) (st : State) :
  let loaded := (EditScreen.loadForm (Some data) st).1 in
  (¬ blank (EditScreen.data_title data) →
   ∀ qs, EditScreen.data_questions data = Some qs → qs ≠ [] →
         Forall (λ q, ¬ blank (text q)) qs →
         issued (handleSubmit loaded)
           = Some {| put_title := EditScreen.data_title data;
                     put_description :=
                       default [] (EditScreen.data_description data);
                     put_questions := qs;
                     put_assignedPatientIds :=
                       default [] (EditScreen.data_assignedPatients data) |}) ∧
  (default [] (EditScreen.data_questions data) = [] →
   rejected (handleSubmit loaded) ∧ issued (handleSubmit loaded) = None).
Proof.
  intros loaded. split.
  - intros Htitle qs Hqs Hne Hall.
    rewrite handleSubmit_valid.
    + unfold loaded. simpl. by rewrite Hqs.
    + unfold invalid, loaded. simpl. rewrite Hqs. simpl.
      rewrite Forall_Exists_neg in Hall. tauto.
  - intros Hnone. destruct (handleSubmit_invalid loaded) as [message Hm].
    + right; left. exact Hnone.
    + split; [by exists message | by rewrite Hm].
Qed.

Lemma loadForm_then_save_witness :
  let q := mkQuestion (js "4") (js "Q1") 0 in
  let data := EditScreen.mkFormData (js "Humor") None (Some [q])
                                    (Some [js "2"]) in
  issued (handleSubmit (EditScreen.loadForm (Some data)
                          (mkState [] [] [] [])).1)
    = Some (mkPutBody (js "Humor") [] [q] [js "2"]).
Proof.
  intros q data.
  apply (loadForm_then_save data (mkState [] [] [] [])) with (qs := [q]).
  - vm_compute. discriminate.
  - reflexivity.
  - discriminate.
  - repeat constructor. vm_compute. discriminate.
Defined.

(** X5. The saving flag does not stay set: if [handleSubmit] issues the
    request, [isSaving] is false once the reply has been handled, whether the
    request resolved or not; if it issues none, [isSaving] is as before. *)
Theorem handleSubmit_resets_isSaving (st : State) (server : PutBody → bool)
    (before : bool) :
  EditScreen.isSavingAfter before (run server (handleSubmit st))
    = match issued (handleSubmit st) with
      | Some _ => false
      | None => before
      end.
Proof.
  destruct (decide (invalid st)) as [Hinv|Hok].
  - destruct (handleSubmit_invalid st Hinv) as [message ->]. reflexivity.
  - rewrite (handleSubmit_valid st Hok). reflexivity.
Qed.

End QuestionListFacts.

(** ** EditForm: the patients and the search box *)

Section PatientListFacts.
Import EditScreen.

Lemma orElse_shown (detail : option jsstring) (fallback : string) :
  fallback ≠ EmptyString →
  orElse detail fallback ≠ Literal "" ∧ orElse detail fallback ≠ Detail [].
Proof.
  intros Hf. destruct detail as [[|c d]|]; simpl; split; congruence.
Qed.

(** X6. [loadPatients] asks the server only when a token is held. Without a
    token nothing on the screen changes; after a request that resolves the
    error text is empty and the list is the one received; after a request
    that fails the list is empty and the error text is not. *)
Theorem loadPatients_outcomes (token : option jsstring)
    (server : unit → PatientsReply) (before : Message * list Patient) :
  let h := loadPatients token in
  (issued h = None ↔ AnswerForm.noToken token = true) ∧
  (AnswerForm.noToken token = true →
     patientsAfter before (run server h) = before) ∧
  (AnswerForm.noToken token = false →
     match server () with
     | Loaded data =>
         patientsAfter before (run server h) = (Literal "", data)
     | Failed detail status =>
         patientsAfter before (run server h)
           = (patientsError detail status, []) ∧
         patientsError detail status ≠ Literal "" ∧
         patientsError detail status ≠ Detail []
     end).
Proof.
  unfold loadPatients. destruct (AnswerForm.noToken token); simpl.
  - split; [done | split; [done | discriminate]].
  - split; [split; discriminate|]. split; [discriminate|]. intros _.
    destruct (server ()) as [data|detail status]; [reflexivity|].
    split; [reflexivity|]. unfold patientsError.
    apply orElse_shown. by case_bool_decide.
Qed.

Lemma loadPatients_outcomes_witness :
  patientsAfter (Literal "", [mkPatient (js "2") (js "Bruno") (js "b@b.app")
                                        (js "bruno")])
    (run (λ _, Failed None (Some 403%N)) (loadPatients (Some (js "bearer"))))
  = (Literal "Apenas psicólogos podem listar pacientes", []).
Proof.
  apply (loadPatients_outcomes (Some (js "bearer"))
           (λ _, Failed None (Some 403%N))).
  reflexivity.
Defined.

Lemma startsWith_spec (s q : jsstring) :
  startsWith s q = true ↔ ∃ post, s = q ++ post.
Proof.
  revert s. induction q as [|c q IH]; intros [|d s]; simpl.
  - split; [intros _; by exists [] | done].
  - split; [intros _; by exists (d :: s) | done].
  - split; [discriminate | intros [post [=]]].
  - rewrite andb_true_iff, N.eqb_eq, IH. split.
    + intros [-> [post ->]]. eauto.
    + intros [post [= -> ->]]. eauto.
Qed.

(** [includes] finds the contiguous occurrences of the text searched. *)
Lemma includes_spec (s q : jsstring) :
  includes s q = true ↔ ∃ pre post, s = pre ++ q ++ post.
Proof.
  induction s as [|d s IH].
  - cbn [includes]. rewrite orb_false_r, startsWith_spec. split.
    + intros [post ->]. by exists [], post.
    + intros (pre & post & H). symmetry in H.
      apply app_eq_nil in H as [-> H]. eauto.
  - cbn [includes]. rewrite orb_true_iff, startsWith_spec, IH. split.
    + intros [[post ->]|(pre & post & ->)].
      * by exists [], post.
      * by exists (d :: pre), post.
    + intros ([|c pre] & post & H).
      * left. eauto.
      * right. injection H as -> ->. eauto.
Qed.

(** X7. The assignment list shows, in their order, exactly the patients
    whose lower-cased name or lower-cased email contains the lower-cased
    query as a contiguous part; with an empty search box every patient is
    shown. *)
Theorem shownPatients_spec (toLowerCase : jsstring → jsstring)
    (patientQuery : jsstring) (patients : list Patient) :
  (∀ p, p ∈ shownPatients toLowerCase patientQuery patients ↔
        p ∈ patients ∧
        ∃ pre post,
          toLowerCase (patient_name p)
            = pre ++ toLowerCase patientQuery ++ post ∨
          toLowerCase (patient_email p)
            = pre ++ toLowerCase patientQuery ++ post) ∧
  shownPatients toLowerCase patientQuery patients `sublist_of` patients ∧
  (toLowerCase [] = [] → shownPatients toLowerCase [] patients = patients).
Proof.
  unfold shownPatients. split; [|split].
  - intros p. rewrite list_elem_of_filter, orb_true_iff, !includes_spec.
    split.
    + intros [[(pre & post & H)|(pre & post & H)] Hp]; eauto 6.
    + intros [Hp (pre & post & [H|H])]; eauto 6.
  - apply sublist_filter.
  - intros Hempty. rewrite Hempty.
    induction patients as [|p ps IH]; [done|].
    rewrite filter_cons_True; [by rewrite IH|].
    apply orb_true_iff. left. apply includes_spec.
    by exists [], (toLowerCase (patient_name p)).
Qed.

Lemma shownPatients_spec_witness :
  let lower := map (λ c, if (65 <=? c)%N && (c <=? 90)%N
                         then (c + 32)%N else c) in
  let ps := [ mkPatient (js "2") (js "Bruno") (js "b@b.app") (js "bruno");
              mkPatient (js "7") (js "Carla") (js "c@b.app") (js "carla") ] in
  shownPatients lower [] ps = ps.
Proof.
  intros lower ps. apply (shownPatients_spec lower [] ps). reflexivity.
Defined.

End PatientListFacts.

(** ** AnswerForm: typing answers, the progress label, the reply *)

(** Membership in a list that is written out. *)
Ltac mem_cases :=
  rewrite ?elem_of_cons, ?elem_of_nil;
  first [split; intros | intros ? | idtac];
  repeat match goal with
         | H : _ ∨ _ |- _ => destruct H
         | H : False |- _ => destruct H
         | H : _ ∧ _ |- _ => destruct H
         end;
  try discriminate; try congruence; try tauto; auto 10.

Section AnswerScreenFacts.
Import AnswerForm.

Lemma handleSubmit_validationError_iff (st : State) (f : FormData)
    (web confirmed : bool) :
  form st = Some f →
  (validationError (handleSubmit st web confirmed) ↔
   ¬ Exists (inheritedAnswer (answers st)) (questions f) ∧
   Exists (lacksAnswer (answers st)) (questions f)).
Proof.
  intros Hf. unfold handleSubmit, validationError. rewrite Hf.
  rewrite <- unansweredQuestions_None.
  destruct (unansweredQuestions (answers st) (questions f)) as [l|] eqn:El.
  - pose proof (unansweredQuestions_Some _ _ _ El) as Hl.
    case_bool_decide as Hun.
    + split; [intros _; split; [done | by apply Hl]|].
      intros _. destruct web; auto.
    + split; [|intros [_ H]; apply Hl in H; done].
      destruct (noToken (token st)), web, confirmed; simpl;
        intros [?|?]; discriminate.
  - split; [intros [?|?]; discriminate | by intros [? _]].
Qed.

Lemma handleSubmit_issued_iff (st : State) (web confirmed : bool)
    (body : PostBody) :
  issued (handleSubmit st web confirmed) = Some body ↔
  ∃ f, form st = Some f ∧
       Forall (λ q, ¬ lacksAnswer (answers st) q) (questions f) ∧
       noToken (token st) = false ∧ confirmed = true ∧
       body = {| formId := routeId st;
                 post_answers :=
                   formattedAnswers (answers st) (questions f) |}.
Proof.
  unfold handleSubmit. destruct (form st) as [f|]; cycle 1.
  { simpl. split; [discriminate | by intros (f & [=] & _)]. }
  destruct (unansweredQuestions (answers st) (questions f)) as [l|] eqn:El;
    cycle 1.
  { simpl. split; [discriminate|]. intros (f' & [= <-] & Hall & _).
    rewrite (unansweredQuestions_complete _ _ Hall) in El. discriminate. }
  pose proof (unansweredQuestions_Some _ _ _ El) as Hl.
  case_bool_decide as Hun; rewrite Hl in Hun.
  - simpl. split; [discriminate|].
    intros (f' & [= <-] & Hall & _). by apply Forall_Exists_neg in Hall.
  - apply Forall_Exists_neg in Hun.
    destruct (noToken (token st)), web, confirmed; simpl;
      (split;
       [ try discriminate; intros [= <-]; eauto 10
       | intros (f' & [= <-] & _ & Htok & Hc & ->);
         try discriminate; reflexivity ]).
Qed.

(** X8. [handleSubmit] never sends answers on its own: a request is issued
    only with a form loaded, every question of it answered with a non-blank
    text, a token held and the dialog confirmed, and it then carries the id
    of the route and one answer per question of the form. *)
Theorem handleSubmit_request_only_if (st : State) (web confirmed : bool)
    (body : PostBody) :
  issued (handleSubmit st web confirmed) = Some body →
  ∃ f, form st = Some f ∧
       Forall (λ q, ¬ lacksAnswer (answers st) q) (questions f) ∧
       noToken (token st) = false ∧ confirmed = true ∧
       formId body = routeId st ∧
       length (post_answers body) = length (questions f) ∧
       questionId <$> post_answers body = id <$> questions f.
Proof.
  intros H. apply handleSubmit_issued_iff in H
    as (f & Hf & Hall & Htok & Hc & ->).
  exists f. simpl. repeat split; try done.
  - unfold formattedAnswers. apply length_map.
  - unfold formattedAnswers. rewrite <- list_fmap_compose. done.
Qed.

Lemma handleSubmit_request_only_if_witness :
  ∃ f, form Scenario.screen = Some f ∧ length (questions f) = 2.
Proof.
  destruct (handleSubmit_request_only_if Scenario.screen true true
              (mkPostBody (js "3") Scenario.submitted))
    as (f & Hf & _ & _ & _ & _ & Hlen & _); [reflexivity|].
  exists f. split; [exact Hf|]. rewrite <- Hlen. reflexivity.
Defined.

(** X9. What [handleSubmit] does with the reply: once the reply is handled
    [isSubmitting] is false, the patient is taken to the list of forms exactly
    when the answers were accepted, and a refusal is shown with the detail
    the server gave or, without one, with the text of the source. If no
    request is issued, [isSubmitting] is as before and nothing navigates to
    the list. *)
Theorem handleSubmit_reply (st : State) (web confirmed : bool)
    (reply : Reply) (before : bool) :
  let h := handleSubmit st web confirmed in
  let tr := run (λ _, reply) h in
  (issued h = None →
     AnswerScreen.isSubmittingAfter before tr = before ∧
     Push "/patient" ∉ tr) ∧
  (is_Some (issued h) →
     AnswerScreen.isSubmittingAfter before tr = false ∧
     (Push "/patient" ∈ tr ↔ reply = Created) ∧
     ∀ detail, reply = Failed detail →
       (if web
        then WindowAlert (orElse detail "Falha ao enviar respostas")
        else Alert "Erro" (orElse detail "Falha ao enviar respostas")) ∈ tr).
Proof.
  intros h tr. unfold tr, h, handleSubmit.
  destruct (form st) as [f|]; simpl.
  2: { split; [intros _; split; [done|apply not_elem_of_nil]
              | by intros [? ?]]. }
  destruct (unansweredQuestions (answers st) (questions f)) as [l|]; simpl.
  2: { split; [intros _; split; [done | mem_cases] | by intros [? ?]]. }
  case_bool_decide as Hun.
  { simpl. split; [intros _|by intros [? ?]].
    split; [by destruct web|]. destruct web; mem_cases. }
  destruct (noToken (token st)).
  { simpl. split; [intros _|by intros [? ?]].
    split; [by destruct web|]. destruct web; mem_cases. }
  destruct web, confirmed; simpl.
  - split; [discriminate|]. intros _.
    destruct reply as [|d]; simpl; (split; [done|]);
      (split; [mem_cases | intros d' [=]; subst; mem_cases]).
  - split; [|by intros [? ?]]. intros _. split; [done|]. mem_cases.
  - split; [discriminate|]. intros _.
    destruct reply as [|d]; simpl; (split; [done|]);
      (split; [mem_cases | intros d' [=]; subst; mem_cases]).
  - split; [|by intros [? ?]]. intros _. split; [done|]. mem_cases.
Qed.

Lemma handleSubmit_reply_witness :
  AnswerScreen.isSubmittingAfter true
    (run (λ _, Failed None) (handleSubmit Scenario.screen false true))
  = false.
Proof.
  apply (handleSubmit_reply Scenario.screen false true (Failed None) true).
  by eexists.
Defined.

Lemma lacksAnswer_spec (m : gmap jsstring jsstring) (q : Question) :
  ¬ lacksAnswer m q ↔ ∃ a, m !! id q = Some a ∧ ¬ blank a.
Proof.
  unfold lacksAnswer. destruct (m !! id q) as [a|].
  - split; [eauto | by intros (a' & [= <-] & ?)].
  - split; [tauto | by intros (a' & [=] & ?)].
Qed.

Lemma lacksAnswer_updateAnswer (st : State) (qid t : jsstring) (q : Question) :
  lacksAnswer (answers (updateAnswer st qid t)) q ↔
  if decide (id q = qid) then blank t else lacksAnswer (answers st) q.
Proof.
  unfold lacksAnswer, updateAnswer. simpl. case_decide as Hq.
  - by rewrite Hq, lookup_insert_eq.
  - by rewrite lookup_insert_ne.
Qed.

Lemma inheritedAnswer_updateAnswer (st : State) (qid t : jsstring)
    (q : Question) :
  inheritedAnswer (answers (updateAnswer st qid t)) q ↔
  id q ≠ qid ∧ inheritedAnswer (answers st) q.
Proof.
  unfold inheritedAnswer, updateAnswer. simpl.
  destruct (decide (id q = qid)) as [->|Hne].
  - rewrite lookup_insert_eq. split; [by intros [? _] | by intros [? _]].
  - rewrite lookup_insert_ne by done. tauto.
Qed.

(** X10. Typing into the box of a question changes the answer to that
    question only. Clearing the answer of a question of the form, or leaving
    only white space in it, keeps [handleSubmit] from issuing a request
    whatever the other answers are, and makes it stop with the validation
    error when no other question has an inherited answer; typing a non-blank
    answer for the one question that lacked it lets [handleSubmit] past that
    check. *)
Theorem updateAnswer_then_submit (st : State) (f : FormData)
    (qid t : jsstring) (web confirmed : bool) :
  form st = Some f →
  (∀ q, lacksAnswer (answers (updateAnswer st qid t)) q ↔
        if decide (id q = qid) then blank t
        else lacksAnswer (answers st) q) ∧
  ((∃ q, q ∈ questions f ∧ id q = qid) → blank t →
     issued (handleSubmit (updateAnswer st qid t) web confirmed) = None ∧
     (Forall (λ q, id q ≠ qid → ¬ inheritedAnswer (answers st) q)
             (questions f) →
      validationError (handleSubmit (updateAnswer st qid t) web confirmed))) ∧
  (¬ blank t →
   Forall (λ q, id q ≠ qid → ¬ lacksAnswer (answers st) q) (questions f) →
     ¬ validationError (handleSubmit (updateAnswer st qid t) web confirmed)).
Proof.
  intros Hf.
  assert (Hf' : form (updateAnswer st qid t) = Some f) by done.
  split; [intros q; apply lacksAnswer_updateAnswer|]. split.
  - intros (q & Hq & Hid) Ht.
    assert (Hlacks : Exists (lacksAnswer (answers (updateAnswer st qid t)))
                            (questions f)).
    { apply Exists_exists. exists q. split; [by apply list_elem_of_In|].
      apply lacksAnswer_updateAnswer. by rewrite decide_True. }
    split.
    + destruct (issued (handleSubmit (updateAnswer st qid t) web confirmed))
        as [body|] eqn:Ei; [|done].
      apply handleSubmit_issued_iff in Ei as (f' & Hf'' & Hall & _).
      assert (f' = f) as -> by congruence.
      by apply Forall_Exists_neg in Hall.
    + intros Hsafe.
      apply (handleSubmit_validationError_iff _ f); [done|].
      split; [|done]. apply Forall_Exists_neg.
      revert Hsafe. apply Forall_impl. intros q' Hq'.
      rewrite inheritedAnswer_updateAnswer. tauto.
  - intros Ht Hall.
    rewrite (handleSubmit_validationError_iff _ f) by done.
    intros [_ Hlacks]. revert Hlacks. apply Forall_Exists_neg.
    revert Hall. apply Forall_impl. intros q Hq.
    rewrite lacksAnswer_updateAnswer. case_decide; auto.
Qed.

Lemma updateAnswer_then_submit_witness :
  validationError
    (handleSubmit (updateAnswer Scenario.screen (js "5") (js "  ")) true true).
Proof.
  edestruct updateAnswer_then_submit
    with (st := Scenario.screen) (qid := js "5") (t := js "  ")
         (web := true) (confirmed := true) as (_ & Hblank & _);
    [reflexivity|].
  destruct Hblank as [_ Hshown]; [|reflexivity|].
  - exists (mkQuestion (js "5") (js "Q2") 1). split; [|reflexivity].
    apply elem_of_cons. right. apply elem_of_cons. by left.
  - apply Hshown. repeat constructor; intros _ [H _]; vm_compute in H;
      discriminate H.
Defined.

(** The keys that count for the progress label. *)
Lemma answered_keys (m : gmap jsstring jsstring) (k : jsstring) :
  k ∈ filter (λ k, ¬ blank (default [] (m !! k))) (map_to_list m).*1 ↔
  ∃ a, m !! k = Some a ∧ ¬ blank a.
Proof.
  rewrite list_elem_of_filter, list_elem_of_fmap. split.
  - intros [Hb ([k' a] & -> & Hka)]. apply elem_of_map_to_list in Hka.
    simpl in *. rewrite Hka in Hb. eauto.
  - intros (a & Hka & Hb). split; [by rewrite Hka|].
    exists (k, a). split; [done|]. by apply elem_of_map_to_list.
Qed.

(** X11. The progress label agrees with the check of [handleSubmit]: when
    the questions of the form have distinct ids and only questions of the
    form have been answered, the count of answered questions is at most the
    number of questions, and it reaches that number exactly when no question
    lacks a non-blank answer. *)
Theorem answeredCount_complete (m : gmap jsstring jsstring)
    (qs : list Question) :
  NoDup (id <$> qs) →
  (∀ k, is_Some (m !! k) → k ∈ id <$> qs) →
  AnswerScreen.answeredCount m ≤ length qs ∧
  (AnswerScreen.answeredCount m = length qs ↔
   Forall (λ q, ¬ lacksAnswer m q) qs).
Proof.
  intros Hnd Hdom. unfold AnswerScreen.answeredCount.
  set (keys := filter (λ k, ¬ blank (default [] (m !! k)))
                      (map_to_list m).*1).
  assert (NoDup keys) as Hkeys
    by (apply list.NoDup_filter, NoDup_fst_map_to_list).
  assert (keys ⊆+ id <$> qs) as Hsub.
  { apply NoDup_submseteq; [done|]. intros k Hk.
    apply answered_keys in Hk as (a & Hka & _). apply Hdom. eauto. }
  pose proof (submseteq_length _ _ Hsub) as Hlen.
  rewrite length_fmap in Hlen. split; [done|]. split.
  - intros Heq.
    assert (keys ≡ₚ id <$> qs) as Hperm.
    { apply submseteq_length_Permutation; [done|].
      rewrite length_fmap. lia. }
    apply Forall_forall. intros q Hq. apply lacksAnswer_spec.
    apply answered_keys. fold keys. rewrite Hperm.
    apply list_elem_of_fmap. exists q. split; [done|].
    by apply list_elem_of_In.
  - intros Hall.
    assert (id <$> qs ⊆+ keys) as Hsup.
    { apply NoDup_submseteq; [done|]. intros k Hk.
      apply list_elem_of_fmap in Hk as (q & -> & Hq).
      apply answered_keys, lacksAnswer_spec.
      rewrite Forall_forall in Hall. apply Hall. by apply list_elem_of_In. }
    apply submseteq_length in Hsup. rewrite length_fmap in Hsup. lia.
Qed.

Lemma answeredCount_complete_witness :
  AnswerScreen.answeredCount (answers Scenario.screen) = 2.
Proof.
  apply (answeredCount_complete (answers Scenario.screen)
           [ mkQuestion (js "4") (js "Q1") 0; mkQuestion (js "5") (js "Q2") 1 ]).
  - apply (bool_decide_unpack _). vm_compute. exact I.
  - intros k [a Hk].
    destruct (decide (k = js "4")) as [->|H4];
      [apply (bool_decide_unpack _); vm_compute; exact I|].
    destruct (decide (k = js "5")) as [->|H5];
      [apply (bool_decide_unpack _); vm_compute; exact I|].
    exfalso. unfold Scenario.screen in Hk. simpl in Hk.
    rewrite lookup_insert_ne, lookup_singleton_ne in Hk by done.
    discriminate.
  - repeat constructor; vm_compute; discriminate.
Defined.

End AnswerScreenFacts.

(** ** AuthContext: the session across restarts *)

Section SessionFacts.
Import Auth.

Lemma truthy_Some (o : option jsstring) :
  Session.truthy o = true ↔ ∃ t, o = Some t ∧ t ≠ [].
Proof.
  destruct o as [[|c t]|]; simpl; split; try discriminate.
  - by intros (t & [= <-] & ?).
  - intros _. by exists (c :: t).
  - intros _. reflexivity.
  - by intros (t & [=] & _).
Qed.

Lemma token_key_ne_user_key : js "token" ≠ js "user".
Proof. vm_compute. discriminate. Qed.

(** X12. A session saved by [login] or [register] survives a restart of the
    application: when the token received is not empty and the stored user
    parses back to the user received, [loadStoredAuth] on the freshly mounted
    provider restores that token and that user and ends the loading state. *)
Theorem session_survives_restart (stringify : User → jsstring)
    (parse : jsstring → Session.Parsed) (t : jsstring) (u : User)
    (st : State) :
  t ≠ [] → stringify u ≠ [] → parse (stringify u) = Session.Value (Some u) →
  let saved := saveSession stringify t u st in
  Session.login stringify (Session.Granted t u) st = inl saved ∧
  Session.register stringify (Session.Granted t u) st = inl saved ∧
  Session.loadStoredAuth parse (Session.mount (storage saved))
    = {| user := Some u; token := Some t; isLoading := false;
         storage := storage saved |}.
Proof.
  intros Ht Hu Hparse saved. split; [done|]. split; [done|].
  unfold Session.loadStoredAuth, Session.mount, saved, saveSession. simpl.
  rewrite lookup_insert_eq.
  rewrite lookup_insert_ne, lookup_insert_eq
    by (intros H; symmetry in H; by apply token_key_ne_user_key in H).
  destruct t as [|c t]; [done|].
  destruct (stringify u) as [|d su] eqn:Hsu; [done|].
  simpl. by rewrite Hparse.
Qed.

Lemma session_survives_restart_witness :
  let u := mkUser (js "2") (js "bruno") (js "Bruno") (js "bruno@bemestar.app")
                  patient in
  let stringify := λ v : User, username v in
  let parse := λ text, if bool_decide (text = js "bruno")
                       then Session.Value (Some u) else Session.Throws in
  token (Session.loadStoredAuth parse
           (Session.mount
              (storage (saveSession stringify (js "bearer") u
                          (Session.mount ∅)))))
  = Some (js "bearer").
Proof.
  intros u stringify parse.
  edestruct (session_survives_restart stringify parse (js "bearer") u
               (Session.mount ∅)) as (_ & _ & ->);
    [vm_compute; discriminate | vm_compute; discriminate | reflexivity |].
  reflexivity.
Defined.

(** X13. After [logout] a restart restores nothing: whatever AsyncStorage
    held and however stored texts parse, [loadStoredAuth] on the freshly
    mounted provider leaves token and user null. *)
Theorem logout_survives_restart (parse : jsstring → Session.Parsed)
    (st : State) :
  Session.loadStoredAuth parse (Session.mount (storage (logout st)))
    = {| user := None; token := None; isLoading := false;
         storage := storage (logout st) |}.
Proof.
  unfold Session.loadStoredAuth, Session.mount, logout. simpl.
  rewrite lookup_delete_ne by (apply not_eq_sym, token_key_ne_user_key).
  by rewrite lookup_delete_eq.
Qed.

(** X14. What [loadStoredAuth] restores on a freshly mounted provider: a
    token exactly when both stored entries are present and not empty, and a
    user exactly when, in addition, the stored text parses to that user. So
    a user is never restored without a token, while a stored user that does
    not parse leaves the token restored without a user. AsyncStorage is not
    written and the loading state ends in every case. *)
Theorem loadStoredAuth_restores (parse : jsstring → Session.Parsed)
    (stored : gmap jsstring jsstring) :
  let st := Session.loadStoredAuth parse (Session.mount stored) in
  isLoading st = false ∧ storage st = stored ∧
  (∀ t, token st = Some t ↔
        stored !! js "token" = Some t ∧ t ≠ [] ∧
        Session.truthy (stored !! js "user") = true) ∧
  (∀ u, user st = Some u ↔
        Session.truthy (stored !! js "token") = true ∧
        ∃ text, stored !! js "user" = Some text ∧ text ≠ [] ∧
                parse text = Session.Value (Some u)) ∧
  (is_Some (user st) → is_Some (token st)).
Proof.
  intros st.
  assert (Hcases :
    Session.truthy (stored !! js "token")
      && Session.truthy (stored !! js "user") = false ∧
      token st = None ∧ user st = None ∧ isLoading st = false ∧
      storage st = stored ∨
    ∃ t text, stored !! js "token" = Some t ∧ t ≠ [] ∧
              stored !! js "user" = Some text ∧ text ≠ [] ∧
              token st = Some t ∧ isLoading st = false ∧
              storage st = stored ∧
              user st = match parse text with
                        | Session.Value v => v
                        | Session.Throws => None
                        end).
  { unfold st, Session.loadStoredAuth, Session.mount. simpl.
    destruct (Session.truthy (stored !! js "token")) eqn:Et; simpl;
      [|left; done].
    destruct (Session.truthy (stored !! js "user")) eqn:Eu; simpl;
      [|left; done].
    right. apply truthy_Some in Et as (t & Et & Ht).
    apply truthy_Some in Eu as (text & Eu & Htext).
    exists t, text. rewrite Et, Eu. simpl.
    destruct (parse text); done. }
  destruct Hcases as [(Hfalsy & Htok & Hu & Hl & Hs)
                     |(t & text & Et & Ht & Eu & Htext & Htok & Hl & Hs & Hu)].
  - split; [done|]. split; [done|].
    apply andb_false_iff in Hfalsy. rewrite Htok, Hu.
    split; [|split].
    + intros t. split; [done|]. intros (Et & Ht & Eu).
      assert (Session.truthy (stored !! js "token") = true)
        by (apply truthy_Some; eauto).
      destruct Hfalsy; congruence.
    + intros u. split; [done|]. intros (Et & text & Eu & Htext & _).
      assert (Session.truthy (stored !! js "user") = true)
        by (apply truthy_Some; eauto).
      destruct Hfalsy; congruence.
    + by intros [? ?].
  - split; [done|]. split; [done|]. rewrite Htok, Hu.
    assert (Session.truthy (stored !! js "token") = true) as Htt
      by (apply truthy_Some; eauto).
    assert (Session.truthy (stored !! js "user") = true) as Htu
      by (apply truthy_Some; eauto).
    split; [|split].
    + intros t'. split; [intros [= <-]; done | intros (Et' & _); congruence].
    + intros u. split.
      * intros Hpu. split; [done|]. exists text. repeat split; try done.
        destruct (parse text) as [|v]; [done | congruence].
      * intros (_ & text' & Eu' & _ & Hp).
        assert (text' = text) as -> by congruence. by rewrite Hp.
    + intros _. eauto.
Qed.

End SessionFacts.

(** ** Register: what follows the reply *)

Section RegisterReplyFacts.
Import Register.

(** X15. What [handleRegister] does with the reply: a granted registration
    saves exactly the session received and replaces the screen by the home
    of the role chosen; a refused one saves no session, navigates nowhere and
    shows the detail of the server or, without one, the text of the source.
    [isLoading] is false afterwards in both cases; when the screen refuses the
    input, nothing is saved, nothing navigates and [isLoading] is as
    before. *)
Theorem handleRegister_reply (st : State) (reply : Reply) (before : bool) :
  let h := handleRegister st in
  let tr := run (λ _, reply) h in
  (issued h = None →
     RegisterScreen.isLoadingAfter before tr = before ∧
     RegisterScreen.savedSessions tr = [] ∧
     RegisterScreen.navigations tr = []) ∧
  (is_Some (issued h) →
     RegisterScreen.isLoadingAfter before tr = false ∧
     match reply with
     | Registered access_token userData =>
         RegisterScreen.savedSessions tr = [(access_token, userData)] ∧
         RegisterScreen.navigations tr = [RegisterScreen.homeOf (role st)]
     | Failed detail =>
         RegisterScreen.savedSessions tr = [] ∧
         RegisterScreen.navigations tr = [] ∧
         Alert "Erro no Cadastro"
           (orElse detail
              "Falha ao cadastrar. Verifique os dados e tente novamente.")
           ∈ tr
     end).
Proof.
  intros h tr. unfold tr, h, handleRegister.
  destruct (falsy (username st) || falsy (password st)
            || falsy (name st) || falsy (email st)).
  { simpl. split; [done | by intros [? ?]]. }
  case_bool_decide. { simpl. split; [done | by intros [? ?]]. }
  case_bool_decide. { simpl. split; [done | by intros [? ?]]. }
  simpl. split; [discriminate|]. intros _.
  destruct reply as [t u|d]; simpl.
  - split; [done|]. split; [done|]. by destruct (role st).
  - split; [done|]. split; [done|]. split; [done|].
    apply elem_of_cons. right. apply elem_of_cons. by left.
Qed.

Lemma handleRegister_reply_witness :
  RegisterScreen.navigations
    (run (λ _, Registered (js "bearer")
                 (Auth.mkUser (js "7") (js "carla") (js "Carla")
                              (js "carla@bemestar.app") Auth.patient))
         (handleRegister (mkState (js "carla") (js "segredo3") (js "Carla")
                                  (js "carla@bemestar.app") patient)))
  = ["/patient"].
Proof.
  match goal with
  | |- RegisterScreen.navigations (run (λ _, ?r) (handleRegister ?s)) = _ =>
      destruct (handleRegister_reply s r false) as [_ Hreply]
  end.
  destruct Hreply as (_ & _ & Hnav); [by eexists|].
  exact Hnav.
Defined.

End RegisterReplyFacts.

(** ** The lists of responses *)

Section ResponsesFacts.
Import Responses.

(** X16. The cards of a list of responses open one at a time: after a press
    on card [r], card [r] is open exactly if it was closed before, and every
    other card is closed; a second press on [r] leaves all cards closed
    unless [r] was the open card at the start, which is then open again. *)
Theorem toggleExpand_one_open (expandedId : option jsstring)
    (r : jsstring) :
  (∀ x, isExpanded (toggleExpand expandedId r) x = true ↔
        x = r ∧ isExpanded expandedId r = false) ∧
  toggleExpand (toggleExpand expandedId r) r
    = (if isExpanded expandedId r then Some r else None).
Proof.
  unfold toggleExpand, isExpanded. split.
  - intros x. destruct (decide (expandedId = Some r)) as [He|He].
    + rewrite (bool_decide_eq_true_2 _ He).
      split; [intros H; by apply bool_decide_eq_true in H | by intros [_ ?]].
    + rewrite (bool_decide_eq_false_2 _ He), bool_decide_eq_true.
      split; [intros [= ->]; done | by intros [-> _]].
  - destruct (decide (expandedId = Some r)) as [He|He].
    + rewrite (bool_decide_eq_true_2 _ He).
      by rewrite bool_decide_eq_false_2.
    + rewrite (bool_decide_eq_false_2 _ He).
      by rewrite bool_decide_eq_true_2.
Qed.

End ResponsesFacts.

(** ** PsychologistHome: the access check and the deletion of a form *)

Section PsychologistHomeFacts.
Import PsychologistHome.

Lemma notPsychologist_false (user : option Auth.User) :
  notPsychologist user = false ↔
  ∃ u, user = Some u ∧ Auth.role u = Auth.psychologist.
Proof.
  unfold notPsychologist. destruct user as [u|].
  - destruct (Auth.role u) eqn:E; split; try discriminate; eauto.
    + intros (u' & [= <-] & H). congruence.
    + intros (u' & [= <-] & H). congruence.
  - split; [discriminate | by intros (u & [=] & _)].
Qed.

(** X17. Of the two copies of the psychologist's home, the one with the
    access check requests the list of forms only for a psychologist who holds
    a token, both when the session changes and when the screen gains focus;
    with a token and any other user, the misspelt role ['patiente'] and no
    user at all included, its session check requests nothing and replaces the
    screen by the patient's home. The copy at app/psychologist/index.tsx
    checks nothing: at mount it requests the list whatever the token and the
    user are, and it never replaces the screen. *)
Theorem forms_request_guard (token : option jsstring)
    (user : option Auth.User) (web : bool) (server : Request → Reply) :
  (GetForms ∈ requestsOf (trace server (onSession token user web)) ↔
   AnswerForm.noToken token = false ∧
   ∃ u, user = Some u ∧ Auth.role u = Auth.psychologist) ∧
  (GetForms ∈ requestsOf (trace server (onFocus token user)) ↔
   AnswerForm.noToken token = false ∧
   ∃ u, user = Some u ∧ Auth.role u = Auth.psychologist) ∧
  (AnswerForm.noToken token = false → notPsychologist user = true →
   requestsOf (trace server (onSession token user web)) = [] ∧
   Did (Replace "/patient") ∈ trace server (onSession token user web)) ∧
  requestsOf (trace server (PsychologistIndex.onMount token user))
    = [GetForms] ∧
  ∀ path,
    Did (Replace path) ∉ trace server (PsychologistIndex.onMount token user).
Proof.
  assert (Hindex :
    requestsOf (trace server (PsychologistIndex.onMount token user))
      = [GetForms] ∧
    ∀ path,
      Did (Replace path)
        ∉ trace server (PsychologistIndex.onMount token user)).
  { unfold PsychologistIndex.onMount, PsychologistIndex.loadForms. simpl.
    destruct (server GetForms) as [data|d st]; simpl;
      (split; [done | intros path; mem_cases]). }
  destruct Hindex as [Hreq Hstay].
  unfold onSession, onFocus, loadForms.
  rewrite <- notPsychologist_false.
  destruct (AnswerForm.noToken token); simpl.
  { split; [|split; [|split; [|done]]]; try discriminate; split;
      first [by intros [? ?] | intros H; by apply elem_of_nil in H]. }
  destruct (notPsychologist user); simpl.
  { split; [|split; [|split; [|done]]].
    - split; [|by intros [_ ?]]. destruct web; simpl; mem_cases.
    - split; [|by intros [_ ?]]. mem_cases.
    - intros _ _. split; [by destruct web|].
      apply elem_of_cons. right. apply elem_of_cons. by left. }
  split; [|split; [|split; [discriminate | done]]].
  - split; [done|]. intros _. apply elem_of_cons. by left.
  - split; [done|]. intros _. apply elem_of_cons. by left.
Qed.

Lemma forms_request_guard_witness :
  let u := Auth.mkUser (js "9") (js "dora") (js "Dora") (js "dora@bemestar.app")
                       Auth.patiente in
  Did (Replace "/patient")
    ∈ trace (λ _, Resolved []) (onSession (Some (js "bearer")) (Some u) true).
Proof.
  intros u.
  apply (forms_request_guard (Some (js "bearer")) (Some u) true
           (λ _, Resolved [])); reflexivity.
Defined.

(** X18. Deleting a form: without the confirmation nothing is requested and
    the screen keeps its state. With it, the deletion of that form is
    requested first; the list is then requested again only if the deletion
    resolved, and it then shows what the server returned if that request
    resolved too; after a refused deletion the list is not requested and
    stays as it was. [isDeletingId] is null at the end in every confirmed
    case. *)
Theorem handleDelete_requests (web confirmed : bool) (formId : jsstring)
    (server : Request → Reply) (deleting : option jsstring)
    (shown : list Form) :
  let tr := trace server (handleDelete web confirmed formId) in
  requestsOf tr
    = (if confirmed then
         match server (DeleteForm formId) with
         | Resolved _ => [DeleteForm formId; GetForms]
         | Rejected _ _ => [DeleteForm formId]
         end
       else []) ∧
  isDeletingIdAfter deleting tr = (if confirmed then None else deleting) ∧
  formsAfter shown tr
    = (if confirmed then
         match server (DeleteForm formId), server GetForms with
         | Resolved _, Resolved data => data
         | _, _ => shown
         end
       else shown).
Proof.
  intros tr. unfold tr, handleDelete, loadForms.
  destruct web, confirmed; simpl; try done;
    destruct (server (DeleteForm formId)) as [gone|d s]; simpl; try done;
    destruct (server GetForms) as [data|d' s']; simpl; done.
Qed.

End PsychologistHomeFacts.

(** ** EditForm: assignment without duplicates, numbering of questions *)

Section AssignmentFacts.
Import EditForm.

Lemma filter_other_length (s : list jsstring) (p : jsstring) :
  NoDup s → p ∈ s → S (length (filter (λ x, x ≠ p) s)) = length s.
Proof.
  induction 1 as [|a s Ha Hs IH]; intros Hp.
  - by apply elem_of_nil in Hp.
  - destruct (decide (a = p)) as [->|Hne].
    + rewrite filter_cons_False by tauto. simpl. f_equal. f_equal.
      clear -Ha. induction s as [|b s IH]; [done|].
      apply not_elem_of_cons in Ha as [Hb Ha].
      rewrite filter_cons_True by done. f_equal. by apply IH.
    + rewrite filter_cons_True by done. simpl. f_equal. apply IH.
      apply elem_of_cons in Hp as [->|Hp]; [done|exact Hp].
Qed.

(** X19. [toggleAssign] lengthens any list by exactly one when the patient
    was not assigned; it keeps a list of assigned patients free of
    duplicates, and on such a list it removes exactly one entry when the
    patient was assigned. *)
Theorem toggleAssign_NoDup (s : list jsstring) (p : jsstring) :
  (p ∉ s → length (toggleAssign s p) = S (length s)) ∧
  (NoDup s →
   NoDup (toggleAssign s p) ∧
   (p ∈ s → S (length (toggleAssign s p)) = length s)).
Proof.
  unfold toggleAssign. split.
  - intros Hp. rewrite bool_decide_eq_false_2 by done.
    rewrite length_app. simpl. lia.
  - intros Hs. case_bool_decide as Hp.
    + split; [by apply list.NoDup_filter|].
      intros _. by apply filter_other_length.
    + split; [|done].
      apply list.NoDup_app. split; [done|]. split; [|apply NoDup_singleton].
      intros x Hx Hxp. apply list_elem_of_singleton in Hxp. by subst.
Qed.

Lemma toggleAssign_NoDup_witness :
  length (toggleAssign [js "2"; js "7"] (js "2")) = 1 ∧
  length (toggleAssign [js "2"; js "2"] (js "7")) = 3.
Proof.
  split.
  - destruct (toggleAssign_NoDup [js "2"; js "7"] (js "2")) as [_ Hnodup].
    destruct Hnodup as [_ Hin].
    + apply (bool_decide_unpack _). vm_compute. exact I.
    + assert (js "2" ∈ [js "2"; js "7"]) as H
        by (apply elem_of_cons; by left).
      apply Hin in H. exact (eq_add_S _ 1 H).
  - apply (toggleAssign_NoDup [js "2"; js "2"] (js "7")).
    intros H. apply (bool_decide_pack _) in H. vm_compute in H. exact H.
Defined.

(** X20. Questions added in a row are appended in the order of the presses,
    each with an empty text, the clock reading of its press as id, and as
    order the length of the list at that moment; the questions already there
    are not touched. *)
Theorem addQuestion_numbering (nows : list jsstring) (qs : list Question) :
  foldl addQuestion qs nows
    = qs ++ imap (λ i now, {| id := now; text := [];
                              order := Z.of_nat (length qs + i) |}) nows.
Proof.
  revert qs. induction nows as [|now nows IH]; intros qs; simpl.
  - by rewrite app_nil_r.
  - rewrite IH. unfold addQuestion. rewrite <- app_assoc. simpl.
    rewrite Nat.add_0_r. do 2 f_equal.
    apply imap_ext. intros i now' _. simpl.
    rewrite length_app. simpl. do 2 f_equal. lia.
Qed.

(** X21. Removing a question does not renumber the others. In a list whose
    last question carries the order "length minus one", removing an earlier
    question (the only one of its id) and then adding a question gives the
    new question the order the last one already has. *)
Theorem removeQuestion_keeps_order (pre mid : list Question)
    (q lst : Question) (now : jsstring) :
  let qs := pre ++ q :: mid ++ [lst] in
  (∀ x, x ∈ pre ++ mid ++ [lst] → id x ≠ id q) →
  order lst = (Z.of_nat (length qs) - 1)%Z →
  addQuestion (removeQuestion qs (id q)) now
    = pre ++ mid
      ++ [lst; {| id := now; text := []; order := order lst |}].
Proof.
  intros qs Hother Hlast.
  assert (removeQuestion qs (id q) = pre ++ mid ++ [lst]) as ->.
  { unfold qs, removeQuestion.
    rewrite list.filter_app, filter_cons_False by tauto.
    rewrite <- list.filter_app. by apply removeQuestion_other. }
  unfold addQuestion. rewrite <- !app_assoc. simpl. do 4 f_equal.
  rewrite Hlast. unfold qs. rewrite !length_app. simpl.
  rewrite !length_app. simpl. f_equal. lia.
Qed.

Lemma removeQuestion_keeps_order_witness :
  let q0 := mkQuestion (js "10") (js "Q1") 0 in
  let q1 := mkQuestion (js "11") (js "Q2") 1 in
  addQuestion (removeQuestion [q0; q1] (js "10")) (js "12")
    = [q1; mkQuestion (js "12") [] 1].
Proof.
  intros q0 q1.
  apply (removeQuestion_keeps_order [] [] q0 q1 (js "12")).
  - intros x Hx. apply list_elem_of_singleton in Hx. subst x.
    vm_compute. discriminate.
  - reflexivity.
Defined.

End AssignmentFacts.

(** ** AuthContext: signing in and out *)

Section SignOutFacts.
Import Auth.

(** X22. Signing out undoes signing in: [logout] after a session was saved
    gives the state [logout] alone gives, whatever token and user were
    saved; and neither saving a session nor [logout] touches an entry of
    AsyncStorage other than ['token'] and ['user']. *)
Theorem logout_undoes_saveSession (stringify : User → jsstring)
    (t : jsstring) (u : User) (st : State) :
  logout (saveSession stringify t u st) = logout st ∧
  ∀ k, k ≠ js "token" → k ≠ js "user" →
       storage (saveSession stringify t u st) !! k = storage st !! k ∧
       storage (logout st) !! k = storage st !! k.
Proof.
  unfold logout, saveSession. simpl. split.
  - f_equal. apply map_eq. intros k.
    rewrite !lookup_delete, !lookup_insert.
    repeat case_decide; congruence.
  - intros k Ht Hu. by rewrite !lookup_insert_ne, !lookup_delete_ne.
Qed.

Lemma logout_undoes_saveSession_witness :
  storage (logout (Session.mount {[ js "theme" := js "dark" ]})) !! js "theme"
  = Some (js "dark").
Proof.
  edestruct (logout_undoes_saveSession (λ v, username v) (js "bearer")
               (mkUser (js "2") (js "bruno") (js "Bruno")
                       (js "bruno@bemestar.app") patient)
               (Session.mount {[ js "theme" := js "dark" ]}))
    as [_ Hframe].
  edestruct (Hframe (js "theme")) as [_ ->];
    [vm_compute; discriminate | vm_compute; discriminate |].
  reflexivity.
Defined.

End SignOutFacts.
